(** * The workflow state manager of siren (src/main.tsx, class StateManager)

    A shallow embedding of the state manager: the node and workflow records,
    the node operations (position, size, collapse, removal) and the two
    reconciliation routines, [initializeWorkflowState] and
    [reEnumerateMarkdownFiles], that merge the persisted graph with the
    listing of markdown files.

    Conventions of the embedding.
    - A node id is a string; the numbers that the id computation reads from
      the ids and prints back are IEEE doubles holding integers, a [Num]
      here, with the rounding of [parseInt] and of the additions and the
      digits of [toString] written out.
    - The other numbers that the state manager computes with (grid indices,
      pixel coordinates, counts) are integers; they are a [Z] here.
    - A string is a [string] whose characters are code units below 256.
    - An optional field ([expandedSize?], [isOrphaned?]) is an [option].
    - [this.state] and the files behind the HTTP service are threaded through
      a state-and-exception monad; an array of objects mutated in place is a
      list updated at the index of the object.
    - Calls to [logger] have no effect on the state and are left out; the
      clock reads of the logger are not counted among the [new Date()] calls
      of the backend. *)

From stdpp Require Import base decidable option list strings gmap.
From Stdlib Require Import Ascii ZArith Lia DecimalString DecimalPos.

Local Open Scope Z_scope.

(** ** Numbers and strings *)

(** The decimal numeral of an integer, with a minus sign below zero. *)
Definition decimalString (z : Z) : string :=
  match z with
  | Z0 => "0"
  | Zpos p => NilEmpty.string_of_uint (Pos.to_uint p)
  | Zneg p => String "-"%char (NilEmpty.string_of_uint (Pos.to_uint p))
  end.

(** A Number that holds an integer or an infinity: the values that
    [parseInt], [Math.max] and the additions of the id computation produce
    (NaN is kept apart, as [None] of [option Num]).  [Finite z] is the
    double of value [z]; the two zeros are one value here, no operation
    below tells them apart. *)
Inductive Num :=
  | Finite (z : Z)
  | Infinite (negative : bool).

#[global] Instance Num_eq_dec : EqDecision Num.
Proof. solve_decision. Defined.

(** The integer nearest to [m >= 0] among those with a significand of 53
    bits, a tie going to the even significand (IEEE 754 round to nearest,
    ties to even).  Below 2^53 every integer is a double. *)
Definition roundSignificand (m : Z) : Z :=
  if m <? 2 ^ 53 then m
  else
    let e := Z.log2 m - 52 in
    let q := m / 2 ^ e in
    let r := m mod 2 ^ e in
    let half := 2 ^ (e - 1) in
    let q' :=
      if r <? half then q
      else if half <? r then q + 1
      else if Z.even q then q else q + 1 in
    q' * 2 ^ e.

(** The Number value of the integer [z]: the nearest double, an infinity
    from 2^1024 on. *)
Definition toNumber (z : Z) : Num :=
  let m := roundSignificand (Z.abs z) in
  if 2 ^ 1024 <=? m then Infinite (z <? 0) else Finite (Z.sgn z * m).

(** [a + k] for an integer [k] that is a double: the exact sum, rounded. *)
Definition Num_add (a : Num) (k : Z) : Num :=
  match a with
  | Finite z => toNumber (z + k)
  | Infinite negative => Infinite negative
  end.

(** [a <= b]. *)
Definition Num_leb (a b : Num) : bool :=
  match a, b with
  | Infinite true, _ => true
  | _, Infinite false => true
  | Finite x, Finite y => x <=? y
  | _, _ => false
  end.

Definition Num_max (a b : Num) : Num := if Num_leb a b then b else a.

(** [Math.max(...ids)] for numbers none of which is NaN; negative infinity
    for no number at all. *)
Definition Math_max (ids : list Num) : Num := foldl Num_max (Infinite true) ids.

Definition decimalLength (m : Z) : Z := Z.of_nat (String.length (decimalString m)).

(** The digits that [Number::toString] prints for the double [m >= 2^53]
    of [n] decimal digits: the least number [k] of digits, from [k] on,
    and a [k]-digit [s] such that [s * 10^(n-k)] rounds to [m], the one
    nearest to [m] and the even one of two equally near.  When a [k]-digit
    number does, the one below or the one above [m / 10^(n-k)] does.  The
    result is [(s, k)]. *)
Fixpoint shortestDigits (fuel : nat) (k n m : Z) : Z * Z :=
  match fuel with
  | O => (m, n)
  | S fuel' =>
      let scale := 10 ^ (n - k) in
      let lo := m / scale in
      let hi := lo + 1 in
      let okLo := bool_decide (toNumber (lo * scale) = Finite m) in
      let okHi := (hi <? 10 ^ k) && bool_decide (toNumber (hi * scale) = Finite m) in
      if okLo && okHi then
        let dLo := m - lo * scale in
        let dHi := hi * scale - m in
        if dLo <? dHi then (lo, k)
        else if dHi <? dLo then (hi, k)
        else if Z.even lo then (lo, k) else (hi, k)
      else if okLo then (lo, k)
      else if okHi then (hi, k)
      else shortestDigits fuel' (k + 1) n m
  end.

Fixpoint zeros (count : nat) : string :=
  match count with
  | O => ""
  | S c => String "0"%char (zeros c)
  end.

(** [Number::toString(m, 10)] for a positive integer double [m].  Below
    2^53 the doubles next to [m] are at most 1 away, so that the shortest
    digits that round to [m] are the digits of [m].  From 2^53 on, with the
    shortest digits [s] ([k] of them) and [s * 10^(n-k)] rounding to [m]: up
    to [n = 21] the digits are followed by [n - k] zeros, beyond that the
    exponent notation is used. *)
Definition digitsOfNumber (m : Z) : string :=
  if m <? 2 ^ 53 then decimalString m
  else
    let d := decimalLength m in
    let '(s, k, n) :=
      if bool_decide (toNumber (10 ^ d) = Finite m) then (1, 1, d + 1)
      else let '(s, k) := shortestDigits (Z.to_nat d) 1 d m in (s, k, d) in
    if n <=? 21 then decimalString s +:+ zeros (Z.to_nat (n - k))
    else
      match decimalString s with
      | String c rest =>
          String c (if k =? 1 then "" else String "."%char rest)
            +:+ "e+" +:+ decimalString (n - 1)
      | EmptyString => EmptyString
      end.

(** [Number.prototype.toString] with no radix argument. *)
Definition toString (x : Num) : string :=
  match x with
  | Infinite false => "Infinity"
  | Infinite true => "-Infinity"
  | Finite z => (if z <? 0 then "-" else "") +:+ digitsOfNumber (Z.abs z)
  end.

(** The white space that [parseInt] skips (StrWhiteSpaceChar), as far as it
    lies below 256: TAB, LF, VT, FF, CR, SP and NBSP. *)
Definition isWhiteSpace (c : ascii) : bool :=
  let n := nat_of_ascii c in
  ((9 <=? n)%nat && (n <=? 13)%nat) || (n =? 32)%nat || (n =? 160)%nat.

Fixpoint trimStart (s : string) : string :=
  match s with
  | String c rest => if isWhiteSpace c then trimStart rest else s
  | EmptyString => s
  end.

(** The value of [c] as a digit of the given radix (10 or 16). *)
Definition digitValue (radix : Z) (c : ascii) : option Z :=
  let n := Z.of_nat (nat_of_ascii c) in
  let v :=
    if (48 <=? n) && (n <=? 57) then Some (n - 48)
    else if (97 <=? n) && (n <=? 122) then Some (n - 87)
    else if (65 <=? n) && (n <=? 90) then Some (n - 55)
    else None in
  match v with
  | Some d => if d <? radix then Some d else None
  | None => None
  end.

(** The longest prefix of radix digits, read as a number; [acc] is the value
    of the digits read so far. *)
Fixpoint parseDigits (radix : Z) (s : string) (acc : Z) : Z :=
  match s with
  | String c rest =>
      match digitValue radix c with
      | Some d => parseDigits radix rest (acc * radix + d)
      | None => acc
      end
  | EmptyString => acc
  end.

Definition startsWithDigit (radix : Z) (s : string) : bool :=
  match s with
  | String c _ => bool_decide (is_Some (digitValue radix c))
  | EmptyString => false
  end.

(** The integer that [parseInt(s)] reads, before it is made a Number;
    [None] when there is no digit.  White space is skipped, a sign is read,
    [0x] or [0X] switches to radix 16, and the longest run of digits is the
    value. *)
Definition parseInteger (s : string) : option Z :=
  let s1 := trimStart s in
  let '(sign, s2) :=
    match s1 with
    | String "-"%char rest => (-1, rest)
    | String "+"%char rest => (1, rest)
    | _ => (1, s1)
    end in
  let '(radix, s3) :=
    match s2 with
    | String "0"%char (String "x"%char rest) => (16, rest)
    | String "0"%char (String "X"%char rest) => (16, rest)
    | _ => (10, s2)
    end in
  if startsWithDigit radix s3 then Some (sign * parseDigits radix s3 0)
  else None.

(** [parseInt(s)] with no radix argument; [None] is NaN.  The integer read
    is rounded to a double.  (An engine may replace the decimal digits after
    the 20th by zeros before it rounds; the value is exact here.) *)
Definition parseInt (s : string) : option Num := toNumber <$> parseInteger s.

(** [word.charAt(0).toUpperCase()] on the letters a to z; other code units
    are kept. *)
Definition toUpperCase (c : ascii) : ascii :=
  let n := nat_of_ascii c in
  if ((97 <=? n)%nat && (n <=? 122)%nat)%bool then ascii_of_nat (n - 32) else c.

(** [s.split(sep)] for a one-character separator: never an empty list. *)
Fixpoint split (sep : ascii) (s : string) : list string :=
  match s with
  | EmptyString => [EmptyString]
  | String c rest =>
      if Ascii.eqb c sep then EmptyString :: split sep rest
      else match split sep rest with
           | w :: ws => String c w :: ws
           | [] => [String c EmptyString]
           end
  end.

(** [words.join(sep)]. *)
Fixpoint join (sep : string) (words : list string) : string :=
  match words with
  | [] => EmptyString
  | [w] => w
  | w :: ws => w +:+ sep +:+ join sep ws
  end.

(** [filename.replace(/\.md$/, '')]: drops one [.md] at the very end. *)
Fixpoint stripMdSuffix (s : string) : string :=
  match s with
  | EmptyString => EmptyString
  | String c rest =>
      if String.eqb s ".md" then EmptyString else String c (stripMdSuffix rest)
  end.

Definition capitalize (word : string) : string :=
  match word with
  | String c rest => String (toUpperCase c) rest
  | EmptyString => EmptyString
  end.

(** [generateLabelFromFilename]. *)
Definition generateLabelFromFilename (filename : string) : string :=
  join " " (capitalize <$> split "-"%char (stripMdSuffix filename)).

(** ** The data model (interfaces NodeState and WorkflowState) *)

Record Position := { x : Z; y : Z }.

(** The [{ width, height }] objects of [size] and [expandedSize]. *)
Record Size := { width : Z; height : Z }.

Module MinDimensions.
Record t := {
  width : Z;
  height : Z;
  collapsedWidth : Z;
  collapsedHeight : Z
}.
End MinDimensions.

Record NodeData := { label : string; markdownPath : string }.

Record NodeState := {
  id : string;
  position : Position;
  size : Size;
  isCollapsed : bool;
  expandedSize : option Size;
  minDimensions : MinDimensions.t;
  data : NodeData;
  isOrphaned : option bool
}.

(** The fields of a reactflow [Edge] that the application fills in. *)
Record Edge := {
  edge_id : string;
  source : string;
  target : string;
  sourceHandle : option string;
  targetHandle : option string;
  edge_label : option string
}.

Record WorkflowState := {
  nodes : list NodeState;
  edges : list Edge;
  lastSaved : string;
  version : string
}.

(** A reactflow [Node] as [toReactFlowNodes] builds it. *)
Record FlowNode := {
  flow_id : string;
  flow_type : string;
  flow_position : Position;
  flow_style : Size;
  flow_data : NodeData
}.

(** Assignments to one field of a node object. *)
Definition set_position (p : Position) (n : NodeState) : NodeState :=
  {| id := id n; position := p; size := size n; isCollapsed := isCollapsed n;
     expandedSize := expandedSize n; minDimensions := minDimensions n;
     data := data n; isOrphaned := isOrphaned n |}.

Definition set_size (s : Size) (n : NodeState) : NodeState :=
  {| id := id n; position := position n; size := s; isCollapsed := isCollapsed n;
     expandedSize := expandedSize n; minDimensions := minDimensions n;
     data := data n; isOrphaned := isOrphaned n |}.

Definition set_isCollapsed (b : bool) (n : NodeState) : NodeState :=
  {| id := id n; position := position n; size := size n; isCollapsed := b;
     expandedSize := expandedSize n; minDimensions := minDimensions n;
     data := data n; isOrphaned := isOrphaned n |}.

Definition set_expandedSize (s : option Size) (n : NodeState) : NodeState :=
  {| id := id n; position := position n; size := size n; isCollapsed := isCollapsed n;
     expandedSize := s; minDimensions := minDimensions n;
     data := data n; isOrphaned := isOrphaned n |}.

Definition set_minDimensions (m : MinDimensions.t) (n : NodeState) : NodeState :=
  {| id := id n; position := position n; size := size n; isCollapsed := isCollapsed n;
     expandedSize := expandedSize n; minDimensions := m;
     data := data n; isOrphaned := isOrphaned n |}.

Definition set_isOrphaned (o : option bool) (n : NodeState) : NodeState :=
  {| id := id n; position := position n; size := size n; isCollapsed := isCollapsed n;
     expandedSize := expandedSize n; minDimensions := minDimensions n;
     data := data n; isOrphaned := o |}.

(** The initial value of [this.state]. *)
Definition initialState : WorkflowState :=
  {| nodes := []; edges := []; lastSaved := ""; version := "1.0.0" |}.

(** ** The world the state manager runs in *)

Record Error := { message : string }.

(** How a [/save-state] request ends for the caller: the answer is ok, the
    answer is not ok, or [fetch] itself rejects.  The handler of the service
    (consoleInterceptor.ts, [app.post('/api/save-state')]) answers ok only
    after [fs.writeFileSync] has returned.  It can fail before the write or
    after it: [writeLog] runs after [writeFileSync] inside the same [try],
    and when it throws the answer is 500 with the file already written; a
    rejected [fetch] does not tell either.  [written] says whether the file
    holds the content of the request after the failure. *)
Inductive SaveResponse :=
  | SaveOk
  | SaveNotOk (statusText : string) (written : bool)
  | SaveRejected (e : Error) (written : bool).

(** What lies behind the [fetch] calls and [new Date()].
    - [configFile]: the content of public/workflows/nodes-and-edges.json,
      [None] when the file is absent (404);
    - [configReadable]: whether fetching it succeeds at all;
    - [enumerateResponse]: the file names answered by [/enumerate-files],
      [None] when the request fails or answers not-ok;
    - [saveResponse]: the answer to [/save-state];
    - [timestamps], [dateCalls]: the k-th call of [new Date().toISOString()]
      gives [timestamps k]. *)
Record Backend := {
  configFile : option WorkflowState;
  configReadable : bool;
  enumerateResponse : option (list string);
  saveResponse : SaveResponse;
  timestamps : nat -> string;
  dateCalls : nat
}.

Record World := { state : WorkflowState; backend : Backend }.

(** The outcome of a call: a value, or a thrown error (a rejected promise). *)
Inductive result (A : Type) :=
  | Return (a : A)
  | Throw (e : Error).
Arguments Return {A} a.
Arguments Throw {A} e.

(** State and exceptions: a call maps the world to the world it leaves
    behind and to its outcome.  A thrown error keeps the changes made before
    the throw. *)
Definition M (A : Type) : Type := World -> World * result A.

Definition ret {A} (a : A) : M A := fun w => (w, Return a).

Definition throw {A} (e : Error) : M A := fun w => (w, Throw e).

Definition bind {A B} (m : M A) (k : A -> M B) : M B :=
  fun w =>
    match m w with
    | (w', Return a) => k a w'
    | (w', Throw e) => (w', Throw e)
    end.

(** [try { body } catch (error) { handler(error) }]. *)
Definition try_catch {A} (body : M A) (handler : Error -> M A) : M A :=
  fun w =>
    match body w with
    | (w', Return a) => (w', Return a)
    | (w', Throw e) => handler e w'
    end.

#[global] Instance M_ret : MRet M := @ret.
#[global] Instance M_bind : MBind M := fun A B k m => bind m k.

(** Reading [this.state]. *)
Definition thisState : M WorkflowState := fun w => (w, Return (state w)).

Definition putState (s : WorkflowState) : M unit :=
  fun w => ({| state := s; backend := backend w |}, Return tt).

(** The world after the assignment [this.state.nodes = ns], or after the
    in-place changes that leave [ns] in the array. *)
Definition withNodes (ns : list NodeState) (w : World) : World :=
  {| state := {| nodes := ns; edges := edges (state w);
                 lastSaved := lastSaved (state w);
                 version := version (state w) |};
     backend := backend w |}.

Definition putNodes (ns : list NodeState) : M unit :=
  fun w => (withNodes ns w, Return tt).

Definition getBackend : M Backend := fun w => (w, Return (backend w)).

(** The backend after one more call of [new Date()]. *)
Definition tick (b : Backend) : Backend :=
  {| configFile := configFile b;
     configReadable := configReadable b;
     enumerateResponse := enumerateResponse b;
     saveResponse := saveResponse b;
     timestamps := timestamps b;
     dateCalls := S (dateCalls b) |}.

(** The backend after the service has written [config] to the file. *)
Definition withConfigFile (config : WorkflowState) (b : Backend) : Backend :=
  {| configFile := Some config;
     configReadable := configReadable b;
     enumerateResponse := enumerateResponse b;
     saveResponse := saveResponse b;
     timestamps := timestamps b;
     dateCalls := dateCalls b |}.

(** [new Date().toISOString()]. *)
Definition Date_toISOString : M string :=
  fun w =>
    ({| state := state w; backend := tick (backend w) |},
     Return (timestamps (backend w) (dateCalls (backend w)))).

(** The service writes the file of the request ([fs.writeFileSync]). *)
Definition writeConfigFile (config : WorkflowState) : M unit :=
  fun w =>
    ({| state := state w; backend := withConfigFile config (backend w) |},
     Return tt).

(** The service writes the file when [written] holds. *)
Definition writeConfigFileIf (written : bool) (config : WorkflowState) : M unit :=
  if written then writeConfigFile config else mret tt.

(** ** Node operations of the state manager *)

(** [nodes.find(n => n.id === nodeId)] with the index of the object found,
    so that an assignment to the object is an update of the list there. *)
Definition findNode (nodeId : string) (ns : list NodeState) : option (nat * NodeState) :=
  list_find (fun n => id n = nodeId) ns.

(** [updateNodePosition]. *)
Definition updateNodePosition (nodeId : string) (position : Position) : M unit :=
  s ← thisState;
  match findNode nodeId (nodes s) with
  | Some (i, nodeState) => putNodes (<[i := set_position position nodeState]> (nodes s))
  | None => mret tt
  end.

(** [updateNodeSize]: the size is remembered as expanded size only while the
    node is not collapsed. *)
Definition updateNodeSize (nodeId : string) (size' : Size) : M unit :=
  s ← thisState;
  match findNode nodeId (nodes s) with
  | Some (i, nodeState) =>
      let nodeState := set_size size' nodeState in
      let nodeState :=
        if negb (isCollapsed nodeState)
        then set_expandedSize (Some size') nodeState
        else nodeState in
      putNodes (<[i := nodeState]> (nodes s))
  | None => mret tt
  end.

(** [updateNodeMinDimensions]. *)
Definition updateNodeMinDimensions (nodeId : string) (minDimensions' : MinDimensions.t) : M unit :=
  s ← thisState;
  match findNode nodeId (nodes s) with
  | Some (i, nodeState) =>
      putNodes (<[i := set_minDimensions minDimensions' nodeState]> (nodes s))
  | None => mret tt
  end.

Record ToggleResult := { newSize : Size; toggle_isCollapsed : bool }.

(** [toggleNodeCollapse]. *)
Definition toggleNodeCollapse (nodeId : string) : M ToggleResult :=
  s ← thisState;
  match findNode nodeId (nodes s) with
  | None => throw {| message := "Node " +:+ nodeId +:+ " not found in state" |}
  | Some (i, nodeState) =>
      let wasCollapsed := isCollapsed nodeState in
      let nodeState := set_isCollapsed (negb wasCollapsed) nodeState in
      let '(nodeState, newSize') :=
        if isCollapsed nodeState then
          (set_expandedSize (Some (size nodeState)) nodeState,
           {| width := MinDimensions.collapsedWidth (minDimensions nodeState);
              height := MinDimensions.collapsedHeight (minDimensions nodeState) |})
        else
          (nodeState,
           match expandedSize nodeState with
           | Some e => e
           | None => {| width := MinDimensions.width (minDimensions nodeState);
                        height := MinDimensions.height (minDimensions nodeState) |}
           end) in
      let nodeState := set_size newSize' nodeState in
      putNodes (<[i := nodeState]> (nodes s));;
      mret {| newSize := newSize'; toggle_isCollapsed := isCollapsed nodeState |}
  end.

(** [getState]: a copy of the state record. *)
Definition getState : M WorkflowState := thisState.

(** [getNodeState]. *)
Definition getNodeState (nodeId : string) : M (option NodeState) :=
  s ← thisState;
  mret (snd <$> findNode nodeId (nodes s)).

(** [removeNode]: [findIndex] and [splice(nodeIndex, 1)]. *)
Definition removeNode (nodeId : string) : M unit :=
  s ← thisState;
  match findNode nodeId (nodes s) with
  | Some (nodeIndex, _) => putNodes (delete nodeIndex (nodes s))
  | None => mret tt
  end.

(** A JavaScript truth test of the optional flag: [undefined] is falsy. *)
Definition truthy (o : option bool) : bool := default false o.

(** [removeOrphanedNodes]: returns how many nodes were dropped. *)
Definition removeOrphanedNodes : M Z :=
  s ← thisState;
  let initialCount := Z.of_nat (length (nodes s)) in
  let kept := filter (fun node => negb (truthy (isOrphaned node)) = true) (nodes s) in
  putNodes kept;;
  mret (initialCount - Z.of_nat (length kept)).

(** [toReactFlowNodes]. *)
Definition toFlowNode (nodeState : NodeState) : FlowNode :=
  {| flow_id := id nodeState;
     flow_type := "workflowNode";
     flow_position := position nodeState;
     flow_style := {| width := width (size nodeState);
                      height := height (size nodeState) |};
     flow_data := data nodeState |}.

Definition toReactFlowNodes : M (list FlowNode) :=
  s ← thisState;
  mret (toFlowNode <$> nodes s).

(** ** Calls to the service *)

(** [loadWorkflowConfig]: the configuration, or [null] when it is absent or
    cannot be fetched. *)
Definition loadWorkflowConfig : M (option WorkflowState) :=
  try_catch
    (b ← getBackend;
     if configReadable b then mret (configFile b)
     else throw {| message := "Failed to load workflow config" |})
    (fun _ => mret None).

(** [enumerateMarkdownFiles]: a failed request is caught and answered with
    the empty array. *)
Definition enumerateMarkdownFiles : M (list string) :=
  try_catch
    (b ← getBackend;
     match enumerateResponse b with
     | Some files => mret files
     | None => throw {| message := "Failed to enumerate files" |}
     end)
    (fun _ => mret []).

(** [saveWorkflowConfig]: a failed request is logged and thrown again.  The
    file may have been written all the same. *)
Definition saveWorkflowConfig (config : WorkflowState) : M unit :=
  try_catch
    (b ← getBackend;
     match saveResponse b with
     | SaveOk => writeConfigFile config
     | SaveNotOk statusText written =>
         writeConfigFileIf written config;;
         throw {| message := "Failed to save workflow config: " +:+ statusText |}
     | SaveRejected e written =>
         writeConfigFileIf written config;;
         throw e
     end)
    (fun error => throw error).

(** ** Reconciliation with the listing of markdown files *)

(** [calculateGridPosition(index, nodeWidth, nodeHeight)]; [%] is the
    truncating remainder and [Math.floor] of the quotient the floor
    division. *)
Definition calculateGridPosition (index nodeWidth nodeHeight : Z) : Position :=
  let cols := 3 in
  let paddingX := 50 in
  let paddingY := 50 in
  let col := Z.rem index cols in
  let row := index / cols in
  {| x := paddingX + col * (nodeWidth + paddingX);
     y := paddingY + row * (nodeHeight + paddingY) |}.

(** The path of a listed file: [`/workflows/${file}`]. *)
Definition workflowPath (file : string) : string := "/workflows/" +:+ file.

(** [new Set(markdownFiles.map(file => `/workflows/${file}`))]. *)
Definition existingFilesOf (markdownFiles : list string) : gset string :=
  list_to_set (workflowPath <$> markdownFiles).

(** [new Set(nodes.map(n => n.data.markdownPath))]. *)
Definition existingPathsOf (ns : list NodeState) : gset string :=
  list_to_set ((fun n => markdownPath (data n)) <$> ns).

(** The body of the availability loop:
    [node.isOrphaned = !existingFiles.has(node.data.markdownPath)]. *)
Definition markOrphaned (existingFiles : gset string) (node : NodeState) : NodeState :=
  set_isOrphaned
    (Some (negb (bool_decide (markdownPath (data node) ∈ existingFiles)))) node.

(** [markdownFiles.filter(file => !existingPaths.has(`/workflows/${file}`))]. *)
Definition newFilesOf (existingPaths : gset string) (markdownFiles : list string) : list string :=
  filter (fun file => workflowPath file ∉ existingPaths) markdownFiles.

(** The next node id: one more than the largest id that [parseInt] reads as a
    number, 1 when there is none.  The sum is a sum of doubles. *)
Definition nextNodeIdOf (ns : list NodeState) : Num :=
  let existingIds := omap (fun n => parseInt (id n)) ns in
  if bool_decide (0 < length existingIds)%nat
  then Num_add (Math_max existingIds) 1
  else Finite 1.

(** The object literal [newNode]. *)
Definition newNodeFor (nodeId : string) (position' : Position) (file : string) : NodeState :=
  {| id := nodeId;
     position := position';
     size := {| width := 250; height := 200 |};
     isCollapsed := true;
     expandedSize := None;
     minDimensions := {| MinDimensions.width := 250;
                         MinDimensions.height := 200;
                         MinDimensions.collapsedWidth := 180;
                         MinDimensions.collapsedHeight := 50 |};
     data := {| label := generateLabelFromFilename file;
                markdownPath := workflowPath file |};
     isOrphaned := Some false |}.

(** [newFiles.forEach((file, index) => { ...; nodes.push(newNode) })], from
    the iteration [index] on.  The callback reads [nodes.length] when it
    runs, that is after the pushes of the earlier iterations. *)
Fixpoint pushNewNodes (nextNodeId : Num) (index : nat) (newFiles : list string)
    (nodes' : list NodeState) : list NodeState :=
  match newFiles with
  | [] => nodes'
  | file :: rest =>
      let nodeId := toString (Num_add nextNodeId (Z.of_nat index)) in
      let position' :=
        calculateGridPosition (Z.of_nat (length nodes') + Z.of_nat index) 250 200 in
      pushNewNodes nextNodeId (S index) rest (nodes' ++ [newNodeFor nodeId position' file])
  end.

(** [initializeWorkflowState]. *)
Definition initializeWorkflowState : M (list FlowNode * list Edge) :=
  existingConfig ← loadWorkflowConfig;
  markdownFiles ← enumerateMarkdownFiles;
  let '(nodes0, edges0, nextNodeId) :=
    match existingConfig with
    | Some config => (nodes config, edges config, nextNodeIdOf (nodes config))
    | None => ([], [], Finite 1)
    end in
  let existingFiles := existingFilesOf markdownFiles in
  let nodes1 := markOrphaned existingFiles <$> nodes0 in
  let existingPaths := existingPathsOf nodes1 in
  let newFiles := newFilesOf existingPaths markdownFiles in
  nodes2 ←
    (if bool_decide (0 < length newFiles)%nat then
       let nodes2 := pushNewNodes nextNodeId 0 newFiles nodes1 in
       now ← Date_toISOString;
       saveWorkflowConfig
         {| nodes := nodes2; edges := edges0; lastSaved := now; version := "1.0.0" |};;
       mret nodes2
     else mret nodes1);
  now ← Date_toISOString;
  putState {| nodes := nodes2; edges := edges0; lastSaved := now; version := "1.0.0" |};;
  reactFlowNodes ← toReactFlowNodes;
  mret (reactFlowNodes, edges0).

Record ReEnumerateResult := {
  result_nodes : list FlowNode;
  result_edges : list Edge;
  newNodes : Z;
  recoveredNodes : Z
}.

Definition putLastSaved (now : string) : M unit :=
  s ← thisState;
  putState {| nodes := nodes s; edges := edges s; lastSaved := now; version := version s |}.

(** [reEnumerateMarkdownFiles]. *)
Definition reEnumerateMarkdownFiles : M ReEnumerateResult :=
  markdownFiles ← enumerateMarkdownFiles;
  let existingFiles := existingFilesOf markdownFiles in
  s ← thisState;
  let recovered :=
    filter (fun node => truthy (isOrphaned node) = true /\
                        truthy (isOrphaned (markOrphaned existingFiles node)) = false)
           (nodes s) in
  let recoveredNodes' := Z.of_nat (length recovered) in
  putNodes (markOrphaned existingFiles <$> nodes s);;
  s ← thisState;
  let existingPaths := existingPathsOf (nodes s) in
  let newFiles := newFilesOf existingPaths markdownFiles in
  newNodes' ←
    (if bool_decide (0 < length newFiles)%nat then
       let nextNodeId := nextNodeIdOf (nodes s) in
       putNodes (pushNewNodes nextNodeId 0 newFiles (nodes s));;
       mret (Z.of_nat (length newFiles))
     else mret 0);
  now ← Date_toISOString;
  putLastSaved now;;
  s ← thisState;
  saveWorkflowConfig s;;
  reactFlowNodes ← toReactFlowNodes;
  s ← thisState;
  mret {| result_nodes := reactFlowNodes; result_edges := edges s;
          newNodes := newNodes'; recoveredNodes := recoveredNodes' |}.

(** [markOrphanedNodes]. *)
Definition markOrphanedNodes : M unit :=
  markdownFiles ← enumerateMarkdownFiles;
  let existingFiles := existingFilesOf markdownFiles in
  s ← thisState;
  putNodes (markOrphaned existingFiles <$> nodes s).

(** ** Derived definitions used in the statements

  These are read off the code above and proved equal to what it computes
  ([toggleNodeCollapse_found], [updateNodeSize_found]). *)

(** The node that [toggleNodeCollapse] leaves in place of [n]. *)
Definition toggledNode (n : NodeState) : NodeState :=
  if isCollapsed n then
    set_size
      (default {| width := MinDimensions.width (minDimensions n);
                  height := MinDimensions.height (minDimensions n) |}
               (expandedSize n))
      (set_isCollapsed false n)
  else
    set_size
      {| width := MinDimensions.collapsedWidth (minDimensions n);
         height := MinDimensions.collapsedHeight (minDimensions n) |}
      (set_expandedSize (Some (size n)) (set_isCollapsed true n)).

(** The node that [updateNodeSize] leaves in place of [n]. *)
Definition resizedNode (s : Size) (n : NodeState) : NodeState :=
  if isCollapsed n then set_size s n
  else set_expandedSize (Some s) (set_size s n).

(** The file names that [enumerateMarkdownFiles] returns: the answer of
    the service, or the empty array when the request fails. *)
Definition listedFiles (b : Backend) : list string :=
  default [] (enumerateResponse b).

(** The configuration that [loadWorkflowConfig] returns. *)
Definition loadedConfig (b : Backend) : option WorkflowState :=
  if configReadable b then configFile b else None.

Definition configNodes (b : Backend) : list NodeState :=
  from_option nodes [] (loadedConfig b).

Definition configEdges (b : Backend) : list Edge :=
  from_option edges [] (loadedConfig b).

(** The nodes after the availability loop. *)
Definition markedNodes (ns : list NodeState) (markdownFiles : list string) : list NodeState :=
  markOrphaned (existingFilesOf markdownFiles) <$> ns.

(** The listed files that no node refers to. *)
Definition novelFiles (ns : list NodeState) (markdownFiles : list string) : list string :=
  newFilesOf (existingPathsOf (markedNodes ns markdownFiles)) markdownFiles.

(** The node array that either reconciliation routine ends with, from the
    nodes [ns] it starts with and the listing [markdownFiles]
    ([initializeWorkflowState_returns], [reEnumerateMarkdownFiles_run]). *)
Definition reconcileNodes (ns : list NodeState) (markdownFiles : list string) : list NodeState :=
  pushNewNodes (nextNodeIdOf ns) 0 (novelFiles ns markdownFiles)
    (markedNodes ns markdownFiles).

(** The [k]-th node that a batch adds to an array that had [count] nodes
    before the batch ([pushNewNodes_from_0]). *)
Definition addedNode (nextNodeId : Num) (count : nat) (k : nat) (file : string) : NodeState :=
  newNodeFor (toString (Num_add nextNodeId (Z.of_nat k)))
    (calculateGridPosition (Z.of_nat count + 2 * Z.of_nat k) 250 200) file.

(** [Number.MAX_SAFE_INTEGER], 2^53 - 1. *)
Definition MAX_SAFE_INTEGER : Z := 9007199254740991.

(** The id of [n] leaves room for [count] further ids among the safe
    integers: when [parseInt] reads it as a number, that number is an
    integer [z] with [z] and [z + count] between [- MAX_SAFE_INTEGER] and
    [MAX_SAFE_INTEGER]. *)
Definition safeId (count : nat) (n : NodeState) : Prop :=
  match parseInt (id n) with
  | Some (Finite z) =>
      - MAX_SAFE_INTEGER <= z /\ z + Z.of_nat count <= MAX_SAFE_INTEGER
  | Some (Infinite _) => False
  | None => True
  end.

#[global] Instance safeId_dec count n : Decision (safeId count n).
Proof. unfold safeId. destruct (parseInt (id n)) as [[z|b]|]; apply _. Defined.

(** The ids of [ns] leave room for [count] new ids among the safe
    integers, and [count] is itself at most [MAX_SAFE_INTEGER]. *)
Definition safeIds (ns : list NodeState) (count : nat) : Prop :=
  Z.of_nat count <= MAX_SAFE_INTEGER /\ Forall (safeId count) ns.

#[global] Instance safeIds_dec ns count : Decision (safeIds ns count).
Proof. unfold safeIds. apply _. Defined.

(** [first] is the next integer above the largest id of [ns] that
    [parseInt] reads as a number, and 1 when it reads none of them. *)
Definition isNextId (ns : list NodeState) (first : Z) : Prop :=
  (forall n z, n ∈ ns -> parseInt (id n) = Some (Finite z) -> z < first) /\
  ((first = 1 /\ forall n, n ∈ ns -> parseInt (id n) = None) \/
   (exists n, n ∈ ns /\ parseInt (id n) = Some (Finite (first - 1)))).

(** The nodes of [after] that follow those of [before] are one node per
    file of [novel], in that order, and their ids are the decimal numerals
    of consecutive integers from the next id of [before] on. *)
Definition batchIds (before : list NodeState) (novel : list string)
    (after : list NodeState) : Prop :=
  exists first,
    isNextId before first /\
    length after = (length before + length novel)%nat /\
    forall (k : nat) file,
      novel !! k = Some file ->
      exists n,
        after !! (length before + k)%nat = Some n /\
        id n = decimalString (first + Z.of_nat k) /\
        markdownPath (data n) = workflowPath file.

(** The availability flag of [n] is set and says "not orphaned" exactly
    when the document path of [n] is the path of a listed file. *)
Definition availabilityMatches (files : list string) (n : NodeState) : Prop :=
  isOrphaned n =
    Some (negb (bool_decide (markdownPath (data n) ∈ workflowPath <$> files))).

(** The backend that serves the graph [s] as the persisted configuration. *)
Definition persisted (s : WorkflowState) (b : Backend) : Backend :=
  {| configFile := Some s;
     configReadable := true;
     enumerateResponse := enumerateResponse b;
     saveResponse := saveResponse b;
     timestamps := timestamps b;
     dateCalls := dateCalls b |}.

(** The position of the grid cell in column [col] and row [row]; the pitch
    is the default node size plus the padding. *)
Definition gridCell (col row : Z) : Position :=
  {| x := 50 + col * (250 + 50); y := 50 + row * (200 + 50) |}.

(** The error that [saveWorkflowConfig] throws for an answer of the
    service, [None] when the service accepts the request. *)
Definition saveError (r : SaveResponse) : option Error :=
  match r with
  | SaveOk => None
  | SaveNotOk statusText _ =>
      Some {| message := "Failed to save workflow config: " +:+ statusText |}
  | SaveRejected e _ => Some e
  end.

(** Whether the service wrote the file of a request that ends as [r]. *)
Definition fileWritten (r : SaveResponse) : bool :=
  match r with
  | SaveOk => true
  | SaveNotOk _ written => written
  | SaveRejected _ written => written
  end.

(** The backend after a [/save-state] request for [config]. *)
Definition afterSave (config : WorkflowState) (b : Backend) : Backend :=
  if fileWritten (saveResponse b) then withConfigFile config b else b.

(** The world that [initializeWorkflowState] leaves when it returns. *)
Definition initializedWorld (w : World) : World :=
  let b := backend w in
  let ns := configNodes b in
  let es := configEdges b in
  let files := listedFiles b in
  let t := timestamps b in
  let k := dateCalls b in
  match novelFiles ns files with
  | [] =>
      {| state := {| nodes := markedNodes ns files; edges := es;
                     lastSaved := t k; version := "1.0.0" |};
         backend := tick b |}
  | _ :: _ =>
      {| state := {| nodes := reconcileNodes ns files; edges := es;
                     lastSaved := t (S k); version := "1.0.0" |};
         backend :=
           tick (withConfigFile
                   {| nodes := reconcileNodes ns files; edges := es;
                      lastSaved := t k; version := "1.0.0" |}
                   (tick b)) |}
  end.

(** The state that [reEnumerateMarkdownFiles] leaves in memory. *)
Definition reEnumeratedState (w : World) : WorkflowState :=
  {| nodes := reconcileNodes (nodes (state w)) (listedFiles (backend w));
     edges := edges (state w);
     lastSaved := timestamps (backend w) (dateCalls (backend w));
     version := version (state w) |}.

(** The value that [reEnumerateMarkdownFiles] returns. *)
Definition reEnumeratedResult (w : World) : ReEnumerateResult :=
  let ns := nodes (state w) in
  let files := listedFiles (backend w) in
  {| result_nodes := toFlowNode <$> reconcileNodes ns files;
     result_edges := edges (state w);
     newNodes := Z.of_nat (length (novelFiles ns files));
     recoveredNodes :=
       Z.of_nat (length (filter
         (fun node => truthy (isOrphaned node) = true /\
                      truthy (isOrphaned (markOrphaned (existingFilesOf files) node)) = false)
         ns)) |}.

(** A call fails loudly in [w] when it throws. *)
Definition failsLoudly {A} (m : M A) (w : World) : Prop :=
  exists w' e, m w = (w', Throw e).

(** The world [w'] has the nodes of [w] up to position, sizes, collapse
    state and minimum dimensions: the same ids, documents and availability
    flags in the same order, the same edges and the same backend. *)
Definition sameIdentity (w w' : World) : Prop :=
  id <$> nodes (state w') = id <$> nodes (state w) /\
  data <$> nodes (state w') = data <$> nodes (state w) /\
  isOrphaned <$> nodes (state w') = isOrphaned <$> nodes (state w) /\
  edges (state w') = edges (state w) /\
  backend w' = backend w.

(** The collapsed size of a node: its collapsed minimum dimensions. *)
Definition collapsedSizeOf (n : NodeState) : Size :=
  {| width := MinDimensions.collapsedWidth (minDimensions n);
     height := MinDimensions.collapsedHeight (minDimensions n) |}.

(** The label built character by character: a hyphen becomes a space and
    the character at the start of a word is put in upper case
    ([join_split_labelChars]). *)
Fixpoint labelChars (start : bool) (s : string) : string :=
  match s with
  | EmptyString => EmptyString
  | String c rest =>
      if Ascii.eqb c "-" then String " " (labelChars true rest)
      else String (if start then toUpperCase c else c) (labelChars false rest)
  end.

(** ** Concrete nodes and worlds of the examples *)

Definition node_300_250 : NodeState :=
  {| id := "1"; position := {| x := 50; y := 50 |};
     size := {| width := 300; height := 250 |};
     isCollapsed := false; expandedSize := None;
     minDimensions := {| MinDimensions.width := 250; MinDimensions.height := 200;
                         MinDimensions.collapsedWidth := 180;
                         MinDimensions.collapsedHeight := 50 |};
     data := {| label := "A"; markdownPath := "/workflows/a.md" |};
     isOrphaned := Some false |}.

Definition quietBackend : Backend :=
  {| configFile := None; configReadable := true; enumerateResponse := Some [];
     saveResponse := SaveOk; timestamps := fun _ => "2025-01-01T00:00:00.000Z";
     dateCalls := 0 |}.

Definition world_300_250 : World :=
  {| state := {| nodes := [node_300_250]; edges := []; lastSaved := "";
                 version := "1.0.0" |};
     backend := quietBackend |}.

(** No configuration yet, and four markdown files in the directory. *)
Definition world_four_documents : World :=
  {| state := initialState;
     backend := {| configFile := None; configReadable := true;
                   enumerateResponse := Some ["a.md"; "b.md"; "c.md"; "d.md"];
                   saveResponse := SaveOk;
                   timestamps := fun _ => "2025-01-01T00:00:00.000Z";
                   dateCalls := 0 |} |}.

(** An expanded node of the default size for the document at [path]. *)
Definition node_with (nodeId path : string) (orphaned : option bool) : NodeState :=
  {| id := nodeId; position := {| x := 50; y := 50 |};
     size := {| width := 250; height := 200 |};
     isCollapsed := false; expandedSize := None;
     minDimensions := {| MinDimensions.width := 250; MinDimensions.height := 200;
                         MinDimensions.collapsedWidth := 180;
                         MinDimensions.collapsedHeight := 50 |};
     data := {| label := "Doc"; markdownPath := path |};
     isOrphaned := orphaned |}.

(** A graph with the ids 3, draft and 7, in memory and on disk; the
    document of the second node is gone, that of the third is back, and
    c.md and d.md are new. *)
Definition graph_mixed_ids : WorkflowState :=
  {| nodes := [node_with "3" "/workflows/a.md" (Some false);
               node_with "draft" "/workflows/x.md" None;
               node_with "7" "/workflows/b.md" (Some true)];
     edges := [{| edge_id := "e3-7"; source := "3"; target := "7";
                  sourceHandle := Some "output-main";
                  targetHandle := Some "input-main";
                  edge_label := None |}];
     lastSaved := "2024-12-31T00:00:00.000Z";
     version := "1.0.0" |}.

Definition backend_mixed_ids (listing : option (list string)) (save : SaveResponse) : Backend :=
  {| configFile := Some graph_mixed_ids; configReadable := true;
     enumerateResponse := listing;
     saveResponse := save;
     timestamps := fun _ => "2025-01-01T00:00:00.000Z";
     dateCalls := 0 |}.

Definition world_mixed_ids : World :=
  {| state := graph_mixed_ids;
     backend := backend_mixed_ids (Some ["b.md"; "c.md"; "a.md"; "d.md"]) SaveOk |}.


(** The graph with the ids 3, draft and 7 when the listing request fails. *)
Definition world_listing_fails : World :=
  {| state := graph_mixed_ids;
     backend := backend_mixed_ids None SaveOk |}.

(** Four new markdown files and a service that answers the write with 500
    after it has written the file. *)
Definition world_save_fails : World :=
  {| state := initialState;
     backend := {| configFile := None; configReadable := true;
                   enumerateResponse := Some ["a.md"; "b.md"; "c.md"; "d.md"];
                   saveResponse := SaveNotOk "Internal Server Error" true;
                   timestamps := fun _ => "2025-01-01T00:00:00.000Z";
                   dateCalls := 0 |} |}.

(** ** Further operations of the state manager *)

(** The world after an assignment to [this.state.edges]. *)
Definition withEdges (es : list Edge) (w : World) : World :=
  {| state := {| nodes := nodes (state w); edges := es;
                 lastSaved := lastSaved (state w);
                 version := version (state w) |};
     backend := backend w |}.

Definition putEdges (es : list Edge) : M unit :=
  fun w => (withEdges es w, Return tt).

(** [edges.find(e => e.id === edgeId)] with the index ([findIndex]). *)
Definition findEdge (edgeId : string) (es : list Edge) : option (nat * Edge) :=
  list_find (fun e => edge_id e = edgeId) es.

(** [addEdge]: pushes the edge unless an edge has its id already. *)
Definition addEdge (edge : Edge) : M unit :=
  s ← thisState;
  match findEdge (edge_id edge) (edges s) with
  | None => putEdges (edges s ++ [edge])
  | Some _ => mret tt
  end.

(** [removeEdge]: [findIndex] and [splice(edgeIndex, 1)]. *)
Definition removeEdge (edgeId : string) : M unit :=
  s ← thisState;
  match findEdge edgeId (edges s) with
  | Some (edgeIndex, _) => putEdges (delete edgeIndex (edges s))
  | None => mret tt
  end.

(** [updateEdges]: the array is replaced by a copy of the argument. *)
Definition updateEdges (es : list Edge) : M unit := putEdges es.

(** [getEdges]. *)
Definition getEdges : M (list Edge) :=
  s ← thisState;
  mret (edges s).

(** The [style] of a reactflow node given to [initializeFromNodes]; either
    dimension may be missing. *)
Record FlowStyle := { style_width : option Z; style_height : option Z }.

(** A reactflow node given to [initializeFromNodes]: [style] and [data] may
    be missing. *)
Record FlowNodeInput := {
  in_id : string;
  in_position : Position;
  in_style : option FlowStyle;
  in_data : option NodeData
}.

(** [value || fallback] on an optional number: a missing value and 0 are
    falsy. *)
Definition orNumber (value : option Z) (fallback : Z) : Z :=
  match value with
  | Some v => if v =? 0 then fallback else v
  | None => fallback
  end.

(** The node state that [initializeFromNodes] builds for one node. *)
Definition nodeStateOfFlowNode (node : FlowNodeInput) : NodeState :=
  {| id := in_id node;
     position := in_position node;
     size := {| width := orNumber (in_style node ≫= style_width) 250;
                height := orNumber (in_style node ≫= style_height) 200 |};
     isCollapsed := false;
     expandedSize := None;
     minDimensions := {| MinDimensions.width := 250;
                         MinDimensions.height := 200;
                         MinDimensions.collapsedWidth := 180;
                         MinDimensions.collapsedHeight := 50 |};
     data := default {| label := "Node " +:+ in_id node;
                        markdownPath := "/workflows/node-" +:+ in_id node +:+ ".md" |}
                     (in_data node);
     isOrphaned := None |}.

(** [initializeFromNodes]. *)
Definition initializeFromNodes (flowNodes : list FlowNodeInput) (es : list Edge) : M unit :=
  putNodes (nodeStateOfFlowNode <$> flowNodes);;
  putEdges es.

(** ** The state file ([saveStateToDisk], [loadStateFromDisk]) *)

(** The state file of the service and its answers.
    - [stateFile]: the content of workflow-state.json, [None] when the file
      is absent (404 on load);
    - [stateSaveResponse]: the answer to [/save-state] for the state file;
    - [stateLoadFailure]: the error with which a [/load-state] request
      fails (a rejected fetch or an answer that is not ok and not 404),
      [None] when the service answers. *)
Record Disk := {
  stateFile : option WorkflowState;
  stateSaveResponse : SaveResponse;
  stateLoadFailure : option Error
}.

(** The state with [lastSaved] assigned. *)
Definition stamped (now : string) (s : WorkflowState) : WorkflowState :=
  {| nodes := nodes s; edges := edges s; lastSaved := now; version := version s |}.

(** The disk after the service has written [s] to the state file. *)
Definition withStateFile (s : WorkflowState) (d : Disk) : Disk :=
  {| stateFile := Some s;
     stateSaveResponse := stateSaveResponse d;
     stateLoadFailure := stateLoadFailure d |}.

(** [saveStateToDisk]: [lastSaved] is assigned before the request is sent;
    a failed request is logged and thrown again, and may have written the
    file all the same. *)
Definition saveStateToDisk (d : Disk) (w : World) : (World * Disk) * result unit :=
  let now := timestamps (backend w) (dateCalls (backend w)) in
  let w1 := {| state := stamped now (state w); backend := tick (backend w) |} in
  match stateSaveResponse d with
  | SaveOk => ((w1, withStateFile (state w1) d), Return tt)
  | SaveNotOk statusText written =>
      ((w1, if written then withStateFile (state w1) d else d),
       Throw {| message := "Failed to save state: " +:+ statusText |})
  | SaveRejected e written =>
      ((w1, if written then withStateFile (state w1) d else d), Throw e)
  end.

(** [loadStateFromDisk]: the saved state replaces [this.state]; an absent
    file and every failure give [null]. *)
Definition loadStateFromDisk (d : Disk) (w : World) : World * option WorkflowState :=
  match stateLoadFailure d with
  | Some _ => (w, None)
  | None =>
      match stateFile d with
      | Some savedState =>
          ({| state := savedState; backend := backend w |}, Some savedState)
      | None => (w, None)
      end
  end.

(** ** The logger (class Logger) *)

Inductive LogLevel := level_debug | level_info | level_warn | level_error.

#[global] Instance LogLevel_eq_dec : EqDecision LogLevel.
Proof. solve_decision. Defined.

(** [levels.indexOf(level)] for [levels = ['debug', 'info', 'warn', 'error']]. *)
Definition levelIndex (level : LogLevel) : Z :=
  match list_find (fun l => l = level)
          [level_debug; level_info; level_warn; level_error] with
  | Some (i, _) => Z.of_nat i
  | None => -1
  end.

(** [shouldLog(level)] of a logger whose active level is [logLevel]. *)
Definition shouldLog (logLevel level : LogLevel) : bool :=
  levelIndex logLevel <=? levelIndex level.

(** The active level that the class sets: ['warn']. *)
Definition activeLogLevel : LogLevel := level_warn.

Record LogEntry := {
  entry_level : LogLevel;
  entry_message : string;
  entry_timestamp : string;
  entry_stack : option string;
  entry_url : string;
  entry_userAgent : string
}.

(** What the logger writes to: the lines given to the console methods and
    the entries posted to [/log]; [serverReachable] tells whether the
    [fetch] of [sendLog] goes through; [logNow], [href] and [userAgent] are
    [new Date().toISOString()], [window.location.href] and
    [navigator.userAgent]. *)
Record LogSink := {
  consoleLines : list (LogLevel * string);
  postedEntries : list LogEntry;
  serverReachable : bool;
  logNow : string;
  href : string;
  userAgent : string
}.

(** [createLogEntry]. *)
Definition createLogEntry (k : LogSink) (level : LogLevel) (msg : string)
    (stack : option string) : LogEntry :=
  {| entry_level := level; entry_message := msg; entry_timestamp := logNow k;
     entry_stack := stack; entry_url := href k; entry_userAgent := userAgent k |}.

(** [sendLog]: a failed [fetch] is caught and reported with
    [console.error]. *)
Definition sendLog (entry : LogEntry) (k : LogSink) : LogSink :=
  if serverReachable k then
    {| consoleLines := consoleLines k;
       postedEntries := postedEntries k ++ [entry];
       serverReachable := serverReachable k;
       logNow := logNow k; href := href k; userAgent := userAgent k |}
  else
    {| consoleLines := consoleLines k ++ [(level_error, "Failed to send log to server:")];
       postedEntries := postedEntries k;
       serverReachable := serverReachable k;
       logNow := logNow k; href := href k; userAgent := userAgent k |}.

(** The methods [debug], [info], [warn] and [error]: nothing below the
    active level, else a console line and [sendLog]. *)
Definition logAt (logLevel level : LogLevel) (msg : string) (stack : option string)
    (k : LogSink) : LogSink :=
  if negb (shouldLog logLevel level) then k
  else
    let k1 := {| consoleLines := consoleLines k ++ [(level, msg)];
                 postedEntries := postedEntries k;
                 serverReachable := serverReachable k;
                 logNow := logNow k; href := href k; userAgent := userAgent k |} in
    sendLog (createLogEntry k1 level msg stack) k1.

(** A JavaScript truth test of an optional string: [undefined] and the
    empty string are falsy. *)
Definition truthyString (o : option string) : bool :=
  match o with
  | Some s => negb (String.eqb s "")
  | None => false
  end.

(** [logUserAction]. *)
Definition logUserAction (logLevel : LogLevel) (action : string) (target' : option string)
    (k : LogSink) : LogSink :=
  let msg :=
    "User Action: " +:+ action +:+
    (if truthyString target' then " on " +:+ default "" target' else "") in
  logAt logLevel level_info msg None k.


(** ** The application component (function App) and its buttons

    The canvas keeps its own copy of the nodes and edges in React state.  A
    [setNodes] or [setEdges] call with an updater function is the updater
    applied to the current value; the root is rendered outside StrictMode,
    so an updater runs once. *)

Record AppState := {
  app_nodes : list FlowNode;
  app_edges : list Edge;
  isInitialized : bool;
  orphanedCount : Z
}.

(** [stateManager.getState().nodes.filter(node => node.isOrphaned).length]. *)
Definition countOrphaned (w : World) : Z :=
  Z.of_nat (length (filter (fun node => truthy (isOrphaned node) = true)
                           (nodes (state w)))).

(** The effect that runs when the component is mounted
    ([initializeWorkflow]): a thrown error is caught and the component is
    marked initialized all the same. *)
Definition initializeWorkflow (app : AppState) (w : World) : AppState * World :=
  match initializeWorkflowState w with
  | (w1, Return (initialNodes, initialEdges)) =>
      ({| app_nodes := initialNodes; app_edges := initialEdges;
          isInitialized := true; orphanedCount := countOrphaned w1 |}, w1)
  | (w1, Throw _) =>
      ({| app_nodes := app_nodes app; app_edges := app_edges app;
          isInitialized := true; orphanedCount := orphanedCount app |}, w1)
  end.

(** [handleEdgeDelete]. *)
Definition handleEdgeDelete (edgeId : string) (app : AppState) (w : World) : AppState * World :=
  let remainingEdges := filter (fun edge => edge_id edge <> edgeId) (app_edges app) in
  let w1 := fst (removeEdge edgeId w) in
  let w2 := fst (updateEdges remainingEdges w1) in
  ({| app_nodes := app_nodes app; app_edges := remainingEdges;
      isInitialized := isInitialized app; orphanedCount := orphanedCount app |}, w2).

(** [handleNodeDelete]: the node updater removes the node from the state
    manager and counts the orphaned nodes; the edge updater that it queues
    runs after it. *)
Definition handleNodeDelete (nodeId : string) (app : AppState) (w : World) : AppState * World :=
  let remainingNodes := filter (fun node => flow_id node <> nodeId) (app_nodes app) in
  let w1 := fst (removeNode nodeId w) in
  let orphanedNodes := countOrphaned w1 in
  let remainingEdges :=
    filter (fun edge => source edge <> nodeId /\ target edge <> nodeId) (app_edges app) in
  let w2 := fst (updateEdges remainingEdges w1) in
  ({| app_nodes := remainingNodes; app_edges := remainingEdges;
      isInitialized := isInitialized app; orphanedCount := orphanedNodes |}, w2).

(** [handleCleanupOrphaned]. *)
Definition handleCleanupOrphaned (app : AppState) (w : World) : AppState * World :=
  match removeOrphanedNodes w with
  | (w1, Return removedCount) =>
      if 0 <? removedCount then
        match toReactFlowNodes w1 with
        | (w2, Return remainingNodes) =>
            let nodeIds : gset string := list_to_set (flow_id <$> remainingNodes) in
            let remainingEdges :=
              filter (fun edge => source edge ∈ nodeIds /\ target edge ∈ nodeIds)
                     (app_edges app) in
            let w3 := fst (updateEdges remainingEdges w2) in
            ({| app_nodes := remainingNodes; app_edges := remainingEdges;
                isInitialized := isInitialized app; orphanedCount := 0 |}, w3)
        | (w2, Throw _) => (app, w2)
        end
      else (app, w1)
  | (w1, Throw _) => (app, w1)
  end.

(** The click handler of the re-scan button ([ReEnumerateButton]) with the
    [handleReEnumerate] callback of the application: a thrown error is
    caught and logged, and the callback is not called. *)
Definition handleReEnumerateClick (app : AppState) (w : World) : AppState * World :=
  match reEnumerateMarkdownFiles w with
  | (w1, Return r) =>
      ({| app_nodes := result_nodes r; app_edges := result_edges r;
          isInitialized := isInitialized app; orphanedCount := countOrphaned w1 |}, w1)
  | (w1, Throw _) => (app, w1)
  end.

(** The click handler of the save button ([SaveButton.handleSave]) when no
    save is in progress: the current state is written as the
    configuration; a thrown error is caught (and shown in an alert). *)
Definition handleSave (w : World) : World :=
  match getState w with
  | (w1, Return currentState) => fst (saveWorkflowConfig currentState w1)
  | (w1, Throw _) => w1
  end.

(** ** The measured minimum dimensions ([WorkflowNode])

    [ceilWidth] and [ceilHeight] are [Math.ceil(svgRect.width)] and
    [Math.ceil(svgRect.height)] of the rendered diagram. *)
Definition measuredMinDimensions (ceilWidth ceilHeight : Z) : MinDimensions.t :=
  let containerPadding := 16 in
  let markdownHeight := 30 in
  let expandedMinWidth := Z.max 200 (ceilWidth + containerPadding) in
  let expandedMinHeight := Z.max 120 (ceilHeight + markdownHeight + containerPadding) in
  {| MinDimensions.width := expandedMinWidth;
     MinDimensions.height := expandedMinHeight;
     MinDimensions.collapsedWidth := Z.max 180 expandedMinWidth;
     MinDimensions.collapsedHeight := markdownHeight + containerPadding |}.

(** An edge that the graph with the ids 3, draft and 7 does not have. *)
Definition edge_7_8 : Edge :=
  {| edge_id := "e7-8"; source := "7"; target := "8";
     sourceHandle := Some "output-alt"; targetHandle := Some "input-alt";
     edge_label := Some "alt flow" |}.

(** Two reactflow nodes as the canvas may hand them over: one with a style
    and data, one with neither. *)
Definition flowNodes_two : list FlowNodeInput :=
  [{| in_id := "1"; in_position := {| x := 10; y := 20 |};
      in_style := Some {| style_width := Some 320; style_height := Some 0 |};
      in_data := Some {| label := "A"; markdownPath := "/workflows/a.md" |} |};
   {| in_id := "2"; in_position := {| x := 30; y := 40 |};
      in_style := None; in_data := None |}].

(** A sink with nothing logged yet and a reachable log server. *)
Definition sink_empty : LogSink :=
  {| consoleLines := []; postedEntries := []; serverReachable := true;
     logNow := "2025-01-01T00:00:00.000Z"; href := "http://localhost:5173/";
     userAgent := "test" |}.

(** A state file service that accepts writes and answers reads, with no
    file yet. *)
Definition disk_empty : Disk :=
  {| stateFile := None; stateSaveResponse := SaveOk; stateLoadFailure := None |}.

(** A state file service that answers writes with 500, the file being
    written before the failure. *)
Definition disk_refusing : Disk :=
  {| stateFile := None;
     stateSaveResponse := SaveNotOk "Internal Server Error" true;
     stateLoadFailure := None |}.

(** The canvas that shows the graph with the ids 3, draft and 7. *)
Definition app_mixed_ids : AppState :=
  {| app_nodes := toFlowNode <$> nodes graph_mixed_ids;
     app_edges := edges graph_mixed_ids;
     isInitialized := true;
     orphanedCount := 1 |}.

(** The canvas before the component has been initialized. *)
Definition app_initial : AppState :=
  {| app_nodes := []; app_edges := []; isInitialized := false; orphanedCount := 0 |}.

(** The graph with the ids 3, draft and 7 with a service that cannot write
    the file and answers 500. *)
Definition world_mixed_refusing : World :=
  {| state := graph_mixed_ids;
     backend := backend_mixed_ids (Some ["b.md"; "c.md"; "a.md"; "d.md"])
                                  (SaveNotOk "Internal Server Error" false) |}.

(** A graph whose only node has the id 2^53 and shows a.md, persisted as
    it is in memory, and a listing that has b.md as well. *)
Definition graph_big_id : WorkflowState :=
  {| nodes := [node_with "9007199254740992" "/workflows/a.md" (Some false)];
     edges := [];
     lastSaved := "2025-01-01T00:00:00.000Z";
     version := "1.0.0" |}.

Definition world_big_id : World :=
  {| state := graph_big_id;
     backend := {| configFile := Some graph_big_id; configReadable := true;
                   enumerateResponse := Some ["a.md"; "b.md"];
                   saveResponse := SaveOk;
                   timestamps := fun _ => "2025-01-01T00:00:00.000Z";
                   dateCalls := 0 |} |}.

(** * Properties *)

(** ** Examples of the string functions *)

Example toString_examples :
  toString (Finite 42) = "42" /\
  toString (Finite (-7)) = "-7" /\
  toString (Finite 0) = "0" /\
  toString (Finite 9007199254740992) = "9007199254740992" /\
  toString (toNumber 9007199254740993) = "9007199254740992" /\
  toString (toNumber 9007199254740995) = "9007199254740996" /\
  toString (toNumber (2 ^ 60)) = "1152921504606847000" /\
  toString (toNumber (10 ^ 21 - 1)) = "1e+21" /\
  toString (toNumber (10 ^ 23)) = "1e+23" /\
  toString (toNumber (- 2 ^ 70)) = "-1.1805916207174113e+21" /\
  toString (toNumber (2 ^ 1024)) = "Infinity".
Proof. vm_compute. by repeat split. Qed.

Example parseInt_examples :
  parseInt "12" = Some (Finite 12) /\ parseInt " -7px" = Some (Finite (-7)) /\
  parseInt "0x1F" = Some (Finite 31) /\ parseInt "node-3" = None /\
  parseInt "" = None /\
  parseInt "9007199254740993" = Some (Finite 9007199254740992) /\
  parseInt "1e+21" = Some (Finite 1) /\
  parseInt "Infinity" = None.
Proof. vm_compute. by repeat split. Qed.

Example label_examples :
  generateLabelFromFilename "data-processing.md" = "Data Processing" /\
  generateLabelFromFilename "user-login" = "User Login" /\
  generateLabelFromFilename "a.md" = "A".
Proof. repeat split; reflexivity. Qed.


(** ** Reading back a printed number *)

Section Digits.

Lemma parseDigits_of_uint_acc (d : Decimal.uint) (a : positive) :
  parseDigits 10 (NilEmpty.string_of_uint d) (Zpos a) = Zpos (Pos.of_uint_acc d a).
Proof.
  revert a; induction d; intros a; simpl; try reflexivity;
    rewrite <- IHd; f_equal;
    match goal with
    | |- context [Z.of_nat (nat_of_ascii ?c)] =>
        let v := eval vm_compute in (Z.of_nat (nat_of_ascii c)) in
        change (Z.of_nat (nat_of_ascii c)) with v
    end; lia.
Qed.

Lemma parseDigits_of_uint (d : Decimal.uint) :
  parseDigits 10 (NilEmpty.string_of_uint d) 0 = Z.of_N (Pos.of_uint d).
Proof.
  induction d; simpl; try reflexivity; try exact IHd;
    match goal with
    | |- parseDigits _ _ ?acc = Z.pos (Pos.of_uint_acc _ ?a) =>
        change acc with (Z.pos a); apply parseDigits_of_uint_acc
    end.
Qed.

Ltac read_back sign Hv :=
  match goal with
  | |- parseInteger (String "-"%char ?s) = _ =>
      transitivity (Some (sign * parseDigits 10 s 0));
      [reflexivity|rewrite Hv; reflexivity]
  | |- parseInteger ?s = _ =>
      transitivity (Some (sign * parseDigits 10 s 0));
      [reflexivity|rewrite Hv; reflexivity]
  end.

(** The digits of a positive number are read back as that number. *)
Lemma parseInteger_digits (p : positive) :
  parseInteger (NilEmpty.string_of_uint (Pos.to_uint p)) = Some (Zpos p).
Proof.
  pose proof (parseDigits_of_uint (Pos.to_uint p)) as Hv.
  rewrite DecimalPos.Unsigned.of_to in Hv.
  pose proof (DecimalPos.Unsigned.to_uint_nonnil p) as Hnil.
  destruct (Pos.to_uint p) as [|d|d|d|d|d|d|d|d|d|d]; [congruence|..];
    [|read_back 1 Hv..].
  destruct d; [exfalso; cbn in Hv; discriminate|read_back 1 Hv..].
Qed.

Lemma parseInteger_minus_digits (p : positive) :
  parseInteger (String "-"%char (NilEmpty.string_of_uint (Pos.to_uint p))) = Some (Zneg p).
Proof.
  pose proof (parseDigits_of_uint (Pos.to_uint p)) as Hv.
  rewrite DecimalPos.Unsigned.of_to in Hv.
  pose proof (DecimalPos.Unsigned.to_uint_nonnil p) as Hnil.
  destruct (Pos.to_uint p) as [|d|d|d|d|d|d|d|d|d|d]; [congruence|..];
    [|read_back (-1) Hv..].
  destruct d; [exfalso; cbn in Hv; discriminate|read_back (-1) Hv..].
Qed.

Lemma parseInteger_decimalString (z : Z) : parseInteger (decimalString z) = Some z.
Proof.
  destruct z as [|p|p];
    [reflexivity|apply parseInteger_digits|apply parseInteger_minus_digits].
Qed.

Lemma decimalString_inj (n m : Z) : decimalString n = decimalString m -> n = m.
Proof.
  intros H. apply (f_equal parseInteger) in H.
  rewrite !parseInteger_decimalString in H. congruence.
Qed.

(** An integer below 2^53 in absolute value is a double, and so is 2^53. *)
Lemma toNumber_safe (z : Z) :
  - MAX_SAFE_INTEGER <= z <= MAX_SAFE_INTEGER + 1 -> toNumber z = Finite z.
Proof.
  unfold MAX_SAFE_INTEGER. intros Hz.
  destruct (decide (z = 9007199254740992)) as [->|Hne]; [by vm_compute|].
  unfold toNumber, roundSignificand.
  change (2 ^ 53) with 9007199254740992.
  rewrite (proj2 (Z.ltb_lt _ _)) by lia.
  assert (Hbig : 9007199254740992 < 2 ^ 1024) by (by apply Z.ltb_lt).
  rewrite (proj2 (Z.leb_gt _ _)) by lia.
  f_equal. lia.
Qed.

(** A safe integer is printed as its decimal numeral. *)
Lemma toString_safe (z : Z) :
  - MAX_SAFE_INTEGER <= z <= MAX_SAFE_INTEGER -> toString (Finite z) = decimalString z.
Proof.
  unfold MAX_SAFE_INTEGER, toString, digitsOfNumber. intros Hz.
  change (2 ^ 53) with 9007199254740992.
  rewrite (proj2 (Z.ltb_lt (Z.abs z) _)) by lia.
  destruct z as [|p|p]; reflexivity.
Qed.

(** The numeral of a safe integer is read back as that integer. *)
Lemma parseInt_decimalString (z : Z) :
  - MAX_SAFE_INTEGER <= z <= MAX_SAFE_INTEGER ->
  parseInt (decimalString z) = Some (Finite z).
Proof.
  intros Hz. unfold parseInt.
  rewrite parseInteger_decimalString. simpl. by rewrite toNumber_safe by lia.
Qed.

End Digits.

(** ** Node operations *)

Ltac run_M :=
  unfold mbind, M_bind, bind, mret, M_ret, ret, throw, try_catch,
    thisState, getBackend, putNodes, putState in *.

Section NodeOperations.

Implicit Types (w : World) (n : NodeState) (ns : list NodeState).

Lemma findNode_id nodeId ns i n :
  findNode nodeId ns = Some (i, n) -> id n = nodeId /\ ns !! i = Some n.
Proof. intros H. apply list_find_Some in H. tauto. Qed.

(** An update of the node found, keeping its id, is found again at the
    same place. *)
Lemma findNode_insert nodeId ns i n n' :
  findNode nodeId ns = Some (i, n) -> id n' = nodeId ->
  findNode nodeId (<[i:=n']> ns) = Some (i, n').
Proof.
  intros H Hid. apply list_find_Some in H as (Hi & _ & Hmin).
  apply list_find_Some. split_and!.
  - apply list_lookup_insert_eq. by eapply lookup_lt_Some.
  - exact Hid.
  - intros j m Hj Hlt. rewrite list_lookup_insert_ne in Hj by lia. eauto.
Qed.

Lemma nodes_withNodes ns w : nodes (state (withNodes ns w)) = ns.
Proof. reflexivity. Qed.

Lemma withNodes_withNodes ns ns' w : withNodes ns (withNodes ns' w) = withNodes ns w.
Proof. reflexivity. Qed.

Lemma withNodes_same w : withNodes (nodes (state w)) w = w.
Proof. by destruct w as [[] ?]. Qed.

Lemma toggleNodeCollapse_found w nodeId i n :
  findNode nodeId (nodes (state w)) = Some (i, n) ->
  toggleNodeCollapse nodeId w =
    (withNodes (<[i:=toggledNode n]> (nodes (state w))) w,
     Return {| newSize := size (toggledNode n);
               toggle_isCollapsed := isCollapsed (toggledNode n) |}).
Proof.
  intros H. unfold toggleNodeCollapse. run_M. rewrite H.
  unfold toggledNode. by destruct n as [? ? ? [] [?|] ? ? ?].
Qed.

Lemma toggleNodeCollapse_absent w nodeId :
  findNode nodeId (nodes (state w)) = None ->
  toggleNodeCollapse nodeId w =
    (w, Throw {| message := "Node " +:+ nodeId +:+ " not found in state" |}).
Proof. intros H. unfold toggleNodeCollapse. run_M. by rewrite H. Qed.

Lemma updateNodeSize_found w nodeId s i n :
  findNode nodeId (nodes (state w)) = Some (i, n) ->
  updateNodeSize nodeId s w =
    (withNodes (<[i:=resizedNode s n]> (nodes (state w))) w, Return tt).
Proof.
  intros H. unfold updateNodeSize. run_M. rewrite H.
  unfold resizedNode. by destruct n as [? ? ? [] ? ? ? ?].
Qed.

Lemma id_toggledNode n : id (toggledNode n) = id n.
Proof. unfold toggledNode. by destruct (isCollapsed n). Qed.

Lemma id_resizedNode s n : id (resizedNode s n) = id n.
Proof. unfold resizedNode. by destruct (isCollapsed n). Qed.

End NodeOperations.

(** ** Collapsing and expanding *)

Section Collapse.

Implicit Types (w : World) (n : NodeState).

(** C6.  Collapse then expand is a round trip on the size: for a node that is
    present and expanded, two calls of [toggleNodeCollapse] both return, the
    first reports the node collapsed and the second expanded with the size the
    node had before, and the node ends with exactly that size; all that has
    changed in the array is that the node remembers this size as its
    expanded size. *)
Theorem toggle_collapse_expand_round_trip w nodeId i n :
  findNode nodeId (nodes (state w)) = Some (i, n) ->
  isCollapsed n = false ->
  exists w1 w2 r1 r2 n2,
    toggleNodeCollapse nodeId w = (w1, Return r1) /\
    toggleNodeCollapse nodeId w1 = (w2, Return r2) /\
    toggle_isCollapsed r1 = true /\
    toggle_isCollapsed r2 = false /\
    newSize r2 = size n /\
    findNode nodeId (nodes (state w2)) = Some (i, n2) /\
    size n2 = size n /\
    isCollapsed n2 = false /\
    nodes (state w2) = <[i:=set_expandedSize (Some (size n)) n]> (nodes (state w)).
Proof.
  intros Hfind Hexp.
  pose proof (findNode_id _ _ _ _ Hfind) as [Hid Hlook].
  pose proof (toggleNodeCollapse_found w nodeId i n Hfind) as H1.
  set (w1 := withNodes (<[i:=toggledNode n]> (nodes (state w))) w) in *.
  assert (Hfind1 : findNode nodeId (nodes (state w1)) = Some (i, toggledNode n)).
  { apply findNode_insert with n; [done|]. by rewrite id_toggledNode. }
  pose proof (toggleNodeCollapse_found w1 nodeId i _ Hfind1) as H2.
  assert (Htt : toggledNode (toggledNode n) = set_expandedSize (Some (size n)) n).
  { unfold toggledNode. rewrite Hexp. simpl.
    destruct n; simpl in *; by subst. }
  rewrite Htt in H2.
  eexists _, _, _, _, _. split_and!; [exact H1|exact H2|..]; simpl.
  - unfold toggledNode. by rewrite Hexp.
  - exact Hexp.
  - done.
  - apply findNode_insert with (toggledNode n); [exact Hfind1|exact Hid].
  - done.
  - exact Hexp.
  - by rewrite list_insert_insert_eq.
Qed.

Lemma toggle_collapse_expand_round_trip_witness :
  exists w1 w2 r1 r2 n2,
    toggleNodeCollapse "1" world_300_250 = (w1, Return r1) /\
    toggleNodeCollapse "1" w1 = (w2, Return r2) /\
    toggle_isCollapsed r1 = true /\
    toggle_isCollapsed r2 = false /\
    newSize r2 = {| width := 300; height := 250 |} /\
    findNode "1" (nodes (state w2)) = Some (0%nat, n2) /\
    size n2 = {| width := 300; height := 250 |} /\
    isCollapsed n2 = false /\
    nodes (state w2) =
      <[0%nat:=set_expandedSize (Some (size node_300_250)) node_300_250]>
        (nodes (state world_300_250)).
Proof.
  apply (toggle_collapse_expand_round_trip world_300_250 "1" 0%nat node_300_250);
    reflexivity.
Defined.

End Collapse.

(** ** Resizing a collapsed node *)

Section Resize.

Implicit Types (w : World) (n : NodeState) (s : Size).

(** C10.  A resize of a collapsed node changes its displayed size and leaves
    the remembered expanded size alone, so that the next expand restores the
    remembered size [e] and not the size given while collapsed; a resize of
    an expanded node sets the remembered size as well. *)
Theorem resize_while_collapsed_keeps_expandedSize w nodeId i n s :
  findNode nodeId (nodes (state w)) = Some (i, n) ->
  (isCollapsed n = true ->
     exists w1 n1,
       updateNodeSize nodeId s w = (w1, Return tt) /\
       findNode nodeId (nodes (state w1)) = Some (i, n1) /\
       size n1 = s /\
       expandedSize n1 = expandedSize n /\
       forall e, expandedSize n = Some e ->
         exists w2 r n2,
           toggleNodeCollapse nodeId w1 = (w2, Return r) /\
           toggle_isCollapsed r = false /\
           newSize r = e /\
           findNode nodeId (nodes (state w2)) = Some (i, n2) /\
           size n2 = e) /\
  (isCollapsed n = false ->
     exists w1 n1,
       updateNodeSize nodeId s w = (w1, Return tt) /\
       findNode nodeId (nodes (state w1)) = Some (i, n1) /\
       size n1 = s /\
       expandedSize n1 = Some s).
Proof.
  intros Hfind.
  pose proof (findNode_id _ _ _ _ Hfind) as [Hid _].
  pose proof (updateNodeSize_found w nodeId s i n Hfind) as H1.
  assert (Hfind1 : findNode nodeId
            (nodes (state (withNodes (<[i:=resizedNode s n]> (nodes (state w))) w)))
          = Some (i, resizedNode s n)).
  { apply findNode_insert with n; [done|]. by rewrite id_resizedNode. }
  split; intros Hc.
  - eexists _, _. split_and!; [exact H1|exact Hfind1|..].
    + unfold resizedNode. by rewrite Hc.
    + unfold resizedNode. by rewrite Hc.
    + intros e He.
      pose proof (toggleNodeCollapse_found _ nodeId i _ Hfind1) as H2.
      assert (Hsz : size (toggledNode (resizedNode s n)) = e).
      { unfold toggledNode, resizedNode. rewrite Hc. simpl. rewrite Hc. simpl.
        by rewrite He. }
      eexists _, _, _. split_and!; [exact H2|..].
      * simpl. unfold toggledNode, resizedNode. rewrite Hc. simpl. by rewrite Hc.
      * exact Hsz.
      * apply findNode_insert with (resizedNode s n); [exact Hfind1|].
        by rewrite id_toggledNode, id_resizedNode.
      * exact Hsz.
  - eexists _, _. split_and!; [exact H1|exact Hfind1|..].
    + unfold resizedNode. by rewrite Hc.
    + unfold resizedNode. by rewrite Hc.
Qed.

Lemma resize_while_collapsed_keeps_expandedSize_witness :
  let n := toggledNode node_300_250 in
  let w := withNodes [n] world_300_250 in
  let s := {| width := 640; height := 480 |} in
  findNode "1" (nodes (state w)) = Some (0%nat, n) /\
  isCollapsed n = true /\
  expandedSize n = Some {| width := 300; height := 250 |} /\
  exists w1 n1,
    updateNodeSize "1" s w = (w1, Return tt) /\
    findNode "1" (nodes (state w1)) = Some (0%nat, n1) /\
    size n1 = s /\
    expandedSize n1 = expandedSize n /\
    forall e, expandedSize n = Some e ->
      exists w2 r n2,
        toggleNodeCollapse "1" w1 = (w2, Return r) /\
        toggle_isCollapsed r = false /\
        newSize r = e /\
        findNode "1" (nodes (state w2)) = Some (0%nat, n2) /\
        size n2 = e.
Proof.
  intros n w s. split_and!; [reflexivity..|].
  apply (resize_while_collapsed_keeps_expandedSize w "1" 0%nat n s);
    reflexivity.
Defined.

End Resize.

(** ** Operations on a node id that is not in the graph *)

Section AbsentNode.

Implicit Types (w : World) (nodeId : string).

(** C9, as the claim states it, fails: [removeNode] on an id that no node
    has returns normally and leaves the world as it was, and so does
    [updateNodePosition]. *)
Lemma absent_node_silent_counterexample :
  findNode "7" (nodes (state world_300_250)) = None /\
  removeNode "7" world_300_250 = (world_300_250, Return tt) /\
  updateNodePosition "7" {| x := 0; y := 0 |} world_300_250 = (world_300_250, Return tt) /\
  ~ failsLoudly (removeNode "7") world_300_250 /\
  ~ failsLoudly (updateNodePosition "7" {| x := 0; y := 0 |}) world_300_250.
Proof.
  split_and!; try reflexivity; intros (w' & e & H); vm_compute in H; discriminate.
Qed.

(** C9, amended.  On an id that no node has, [toggleNodeCollapse] throws the
    error "Node <id> not found in state" and changes nothing, while
    [updateNodePosition], [updateNodeSize], [updateNodeMinDimensions] and
    [removeNode] return normally and change nothing. *)
Theorem absent_node_operations w nodeId p s m :
  findNode nodeId (nodes (state w)) = None ->
  toggleNodeCollapse nodeId w =
    (w, Throw {| message := "Node " +:+ nodeId +:+ " not found in state" |}) /\
  failsLoudly (toggleNodeCollapse nodeId) w /\
  updateNodePosition nodeId p w = (w, Return tt) /\
  updateNodeSize nodeId s w = (w, Return tt) /\
  updateNodeMinDimensions nodeId m w = (w, Return tt) /\
  removeNode nodeId w = (w, Return tt).
Proof.
  intros H. split_and!.
  - by apply toggleNodeCollapse_absent.
  - eexists _, _. by apply toggleNodeCollapse_absent.
  - unfold updateNodePosition. run_M. by rewrite H.
  - unfold updateNodeSize. run_M. by rewrite H.
  - unfold updateNodeMinDimensions. run_M. by rewrite H.
  - unfold removeNode. run_M. by rewrite H.
Qed.

Lemma absent_node_operations_witness :
  let w := world_300_250 in
  let p := {| x := 10; y := 20 |} in
  let s := {| width := 640; height := 480 |} in
  let m := minDimensions node_300_250 in
  findNode "7" (nodes (state w)) = None /\
  toggleNodeCollapse "7" w =
    (w, Throw {| message := "Node " +:+ "7" +:+ " not found in state" |}) /\
  failsLoudly (toggleNodeCollapse "7") w /\
  updateNodePosition "7" p w = (w, Return tt) /\
  updateNodeSize "7" s w = (w, Return tt) /\
  updateNodeMinDimensions "7" m w = (w, Return tt) /\
  removeNode "7" w = (w, Return tt).
Proof.
  intros w p s m. split; [reflexivity|].
  apply (absent_node_operations w "7" p s m). reflexivity.
Defined.

End AbsentNode.

(** ** What the reconciliation routines compute *)

Section Runs.

Implicit Types (w : World) (ns : list NodeState) (files : list string).

Lemma loadWorkflowConfig_run w :
  loadWorkflowConfig w = (w, Return (loadedConfig (backend w))).
Proof.
  unfold loadWorkflowConfig, loadedConfig. run_M.
  by destruct (configReadable (backend w)).
Qed.

Lemma enumerateMarkdownFiles_run w :
  enumerateMarkdownFiles w = (w, Return (listedFiles (backend w))).
Proof.
  unfold enumerateMarkdownFiles, listedFiles. run_M.
  by destruct (enumerateResponse (backend w)).
Qed.

Lemma saveWorkflowConfig_ok w config :
  saveResponse (backend w) = SaveOk ->
  saveWorkflowConfig config w =
    ({| state := state w; backend := withConfigFile config (backend w) |}, Return tt).
Proof. intros H. unfold saveWorkflowConfig. run_M. by rewrite H. Qed.

Lemma saveWorkflowConfig_fails w config e :
  saveError (saveResponse (backend w)) = Some e ->
  saveWorkflowConfig config w =
    ({| state := state w; backend := afterSave config (backend w) |}, Throw e).
Proof.
  intros H. unfold saveWorkflowConfig, afterSave. run_M.
  destruct w as [s b]. simpl in *.
  destruct (saveResponse b) as [|? []|? []]; simpl in H; try congruence;
    injection H as <-; reflexivity.
Qed.

Lemma id_markOrphaned F (n : NodeState) : id (markOrphaned F n) = id n.
Proof. reflexivity. Qed.

Lemma path_markOrphaned F (n : NodeState) :
  markdownPath (data (markOrphaned F n)) = markdownPath (data n).
Proof. reflexivity. Qed.

Lemma nextNodeIdOf_marked ns files :
  nextNodeIdOf (markedNodes ns files) = nextNodeIdOf ns.
Proof.
  unfold nextNodeIdOf, markedNodes.
  assert (omap (fun n => parseInt (id n))
            (markOrphaned (existingFilesOf files) <$> ns)
          = omap (fun n => parseInt (id n)) ns) as ->; [|done].
  induction ns as [|n ns IH]; simpl; [done|].
  destruct (parseInt (id n)); [f_equal|]; exact IH.
Qed.

Lemma novelFiles_nil_reconcileNodes ns files :
  novelFiles ns files = [] -> reconcileNodes ns files = markedNodes ns files.
Proof. unfold reconcileNodes. by intros ->. Qed.

Lemma initializeWorkflowState_body w :
  initializeWorkflowState w =
    match novelFiles (configNodes (backend w)) (listedFiles (backend w)) with
    | [] =>
        (initializedWorld w,
         Return (toFlowNode <$> nodes (state (initializedWorld w)),
                 configEdges (backend w)))
    | _ :: _ =>
        match saveError (saveResponse (backend w)) with
        | None =>
            (initializedWorld w,
             Return (toFlowNode <$> nodes (state (initializedWorld w)),
                     configEdges (backend w)))
        | Some e =>
            ({| state := state w;
                backend :=
                  afterSave
                    {| nodes := reconcileNodes (configNodes (backend w))
                                  (listedFiles (backend w));
                       edges := configEdges (backend w);
                       lastSaved := timestamps (backend w) (dateCalls (backend w));
                       version := "1.0.0" |}
                    (tick (backend w)) |},
             Throw e)
        end
    end.
Proof.
  unfold initializeWorkflowState, initializedWorld, afterSave.
  unfold mbind at 1, M_bind at 1, bind at 1. rewrite loadWorkflowConfig_run.
  unfold mbind at 1, M_bind at 1, bind at 1. rewrite enumerateMarkdownFiles_run.
  unfold reconcileNodes, novelFiles, markedNodes, configNodes, configEdges.
  destruct (loadedConfig (backend w)) as [config|]; simpl.
  - destruct (newFilesOf _ _) as [|f fs] eqn:Hnew; simpl.
    + reflexivity.
    + unfold saveWorkflowConfig, Date_toISOString, writeConfigFile. run_M. simpl.
      destruct (saveResponse (backend w)) as [|? []|? []]; reflexivity.
  - destruct (newFilesOf _ _) as [|f fs] eqn:Hnew; simpl.
    + reflexivity.
    + unfold saveWorkflowConfig, Date_toISOString, writeConfigFile. run_M. simpl.
      destruct (saveResponse (backend w)) as [|? []|? []]; reflexivity.
Qed.

Lemma reEnumerateMarkdownFiles_run w :
  reEnumerateMarkdownFiles w =
    match saveError (saveResponse (backend w)) with
    | None =>
        ({| state := reEnumeratedState w;
            backend := withConfigFile (reEnumeratedState w) (tick (backend w)) |},
         Return (reEnumeratedResult w))
    | Some e =>
        ({| state := reEnumeratedState w;
            backend := afterSave (reEnumeratedState w) (tick (backend w)) |},
         Throw e)
    end.
Proof.
  unfold reEnumerateMarkdownFiles, reEnumeratedState, reEnumeratedResult, afterSave.
  unfold mbind at 1, M_bind at 1, bind at 1. rewrite enumerateMarkdownFiles_run.
  unfold reconcileNodes, novelFiles.
  rewrite <- (nextNodeIdOf_marked (nodes (state w)) (listedFiles (backend w))).
  unfold markedNodes.
  unfold saveWorkflowConfig, Date_toISOString, writeConfigFile, putLastSaved,
    toReactFlowNodes.
  run_M. simpl.
  destruct (newFilesOf _ _) as [|f fs] eqn:Hnew; simpl;
    destruct (saveResponse (backend w)) as [|? []|? []]; reflexivity.
Qed.

End Runs.

(** ** The nodes that a batch adds *)

Section Batch.

Implicit Types (ns : list NodeState) (files : list string).

Lemma pushNewNodes_imap nextNodeId index files ns :
  pushNewNodes nextNodeId index files ns =
    ns ++ imap (fun k file =>
                  newNodeFor (toString (Num_add nextNodeId (Z.of_nat (index + k))))
                    (calculateGridPosition
                       (Z.of_nat (length ns) + Z.of_nat index + 2 * Z.of_nat k) 250 200)
                    file) files.
Proof.
  revert index ns. induction files as [|file rest IH]; intros index ns; simpl.
  - by rewrite app_nil_r.
  - rewrite IH, <- app_assoc. simpl. f_equal. f_equal.
    + rewrite Nat.add_0_r. do 2 f_equal; lia.
    + apply imap_ext. intros k f _. simpl. rewrite length_app. simpl.
      replace (S (index + k)) with (index + S k)%nat by lia.
      do 2 f_equal; lia.
Qed.

Lemma pushNewNodes_from_0 nextNodeId files ns :
  pushNewNodes nextNodeId 0 files ns =
    ns ++ imap (addedNode nextNodeId (length ns)) files.
Proof.
  rewrite pushNewNodes_imap. f_equal. apply imap_ext. intros k f _.
  unfold addedNode. simpl. do 2 f_equal; lia.
Qed.

Lemma length_markedNodes ns files : length (markedNodes ns files) = length ns.
Proof. unfold markedNodes. by rewrite length_fmap. Qed.

Lemma reconcileNodes_app ns files :
  reconcileNodes ns files =
    markedNodes ns files
      ++ imap (addedNode (nextNodeIdOf ns) (length ns)) (novelFiles ns files).
Proof.
  unfold reconcileNodes. by rewrite pushNewNodes_from_0, length_markedNodes.
Qed.

(** The [k]-th node of a batch lies in the grid cell of index [count + 2k]:
    [nodes.length] has grown by [k] when its position is computed from
    [nodes.length + index]. *)
Lemma position_addedNode nextNodeId count k file :
  position (addedNode nextNodeId count k file) =
    gridCell ((Z.of_nat count + 2 * Z.of_nat k) mod 3)
             ((Z.of_nat count + 2 * Z.of_nat k) / 3).
Proof.
  unfold addedNode, newNodeFor, calculateGridPosition, gridCell. simpl.
  rewrite Z.rem_mod_nonneg by lia. reflexivity.
Qed.

(** In the array that reconciliation ends with, the [k]-th new node is in
    the grid cell of index [count + 2k], [count] being the number of nodes
    before the batch. *)
Lemma reconcileNodes_new_position ns files (k : nat) file :
  novelFiles ns files !! k = Some file ->
  exists n,
    reconcileNodes ns files !! (length ns + k)%nat = Some n /\
    position n = gridCell ((Z.of_nat (length ns) + 2 * Z.of_nat k) mod 3)
                          ((Z.of_nat (length ns) + 2 * Z.of_nat k) / 3).
Proof.
  intros Hk. eexists. split; [|apply position_addedNode].
  rewrite reconcileNodes_app, lookup_app_r by (rewrite length_markedNodes; lia).
  rewrite length_markedNodes, Nat.add_comm, Nat.add_sub.
  by rewrite list_lookup_imap, Hk.
Qed.

(** C2, on the code.  From no configuration and the listing a.md, b.md,
    c.md, d.md, [initializeWorkflowState] puts the four new nodes in the
    grid cells (0,0), (2,0), (1,1), (0,2), which are not the cells (0,0),
    (1,0), (2,0), (0,1) of the indices 0, 1, 2, 3. *)
Theorem grid_cells_of_four_documents :
  position <$> nodes (state (fst (initializeWorkflowState world_four_documents)))
    = [gridCell 0 0; gridCell 2 0; gridCell 1 1; gridCell 0 2] /\
  position <$> nodes (state (fst (initializeWorkflowState world_four_documents)))
    <> [gridCell 0 0; gridCell 1 0; gridCell 2 0; gridCell 0 1] /\
  position <$> nodes (state (fst (reEnumerateMarkdownFiles world_four_documents)))
    = [gridCell 0 0; gridCell 2 0; gridCell 1 1; gridCell 0 2].
Proof. split_and!; [reflexivity|discriminate|reflexivity]. Qed.

End Batch.

(** ** Node ids *)

Section Ids.

Implicit Types (w : World) (ns : list NodeState) (files : list string).

Lemma Num_leb_refl (a : Num) : Num_leb a a = true.
Proof. destruct a as [z|[]]; simpl; [lia|done..]. Qed.

Lemma Num_leb_trans (a b c : Num) :
  Num_leb a b = true -> Num_leb b c = true -> Num_leb a c = true.
Proof.
  destruct a as [x|[]], b as [y|[]], c as [z|[]]; simpl; try done. lia.
Qed.

Lemma Num_max_ge_l (a b : Num) : Num_leb a (Num_max a b) = true.
Proof.
  unfold Num_max. destruct (Num_leb a b) eqn:H; [done|apply Num_leb_refl].
Qed.

Lemma Num_max_ge_r (a b : Num) : Num_leb b (Num_max a b) = true.
Proof.
  unfold Num_max. destruct (Num_leb a b) eqn:H; [apply Num_leb_refl|].
  destruct a as [x|[]], b as [y|[]]; simpl in *; try done. lia.
Qed.

Lemma foldl_max_spec (rest : list Num) (i : Num) :
  Num_leb i (foldl Num_max i rest) = true /\
  (forall v, v ∈ rest -> Num_leb v (foldl Num_max i rest) = true) /\
  (foldl Num_max i rest = i \/ foldl Num_max i rest ∈ rest).
Proof.
  revert i. induction rest as [|r rest IH]; intros i; simpl.
  - split_and!; [apply Num_leb_refl|by intros v ?%elem_of_nil|by left].
  - destruct (IH (Num_max i r)) as (H1 & H2 & H3). split_and!.
    + eapply Num_leb_trans; [apply Num_max_ge_l|exact H1].
    + intros v [->|Hv]%elem_of_cons; [|by apply H2].
      eapply Num_leb_trans; [apply Num_max_ge_r|exact H1].
    + destruct H3 as [H3|H3].
      * rewrite H3. unfold Num_max. destruct (Num_leb i r); [right; left|by left].
      * right. by right.
Qed.

Lemma Math_max_ge (ids : list Num) (v : Num) :
  v ∈ ids -> Num_leb v (Math_max ids) = true.
Proof. apply foldl_max_spec. Qed.

Lemma Math_max_elem (ids : list Num) : ids <> [] -> Math_max ids ∈ ids.
Proof.
  destruct ids as [|i rest]; [done|intros _]. unfold Math_max. simpl.
  change (Num_max (Infinite true) i) with i.
  destruct (foldl_max_spec rest i) as (_ & _ & [H|H]).
  - rewrite H. by left.
  - by right.
Qed.

Lemma safeIds_elem ns count n v :
  safeIds ns count -> n ∈ ns -> parseInt (id n) = Some v ->
  exists z, v = Finite z /\
    - MAX_SAFE_INTEGER <= z /\ z + Z.of_nat count <= MAX_SAFE_INTEGER.
Proof.
  intros [_ Hall] Hn Hv. rewrite Forall_forall in Hall.
  specialize (Hall n Hn). unfold safeId in Hall. rewrite Hv in Hall.
  destruct v as [z|b]; [eauto|done].
Qed.

(** Among safe ids the next node id is the next integer, and the ids of
    the batch stay safe integers. *)
Lemma nextNodeIdOf_isNextId ns count :
  safeIds ns count ->
  exists first,
    nextNodeIdOf ns = Finite first /\
    isNextId ns first /\
    - MAX_SAFE_INTEGER <= first /\
    first + Z.of_nat count <= MAX_SAFE_INTEGER + 1.
Proof.
  intros Hsafe. unfold isNextId, nextNodeIdOf.
  set (existingIds := omap (fun n => parseInt (id n)) ns).
  assert (Hin : forall n v, n ∈ ns -> parseInt (id n) = Some v -> v ∈ existingIds).
  { intros n v Hn Hv. apply list_elem_of_omap. eauto. }
  destruct existingIds as [|i rest] eqn:Hids.
  - exists 1. simpl. split_and!.
    + done.
    + intros n z Hn Hv. by apply Hin, elem_of_nil in Hv.
    + left. split; [done|]. intros n Hn.
      destruct (parseInt (id n)) as [v|] eqn:Hv; [|done].
      by apply (Hin n v), elem_of_nil in Hv.
    + unfold MAX_SAFE_INTEGER. lia.
    + destruct Hsafe as [Hcount _]. lia.
  - rewrite bool_decide_true by (simpl; lia).
    assert (Hm : Math_max (i :: rest) ∈ existingIds).
    { rewrite Hids. by apply Math_max_elem. }
    apply list_elem_of_omap in Hm as (n & Hn & Hv).
    destruct (safeIds_elem _ _ _ _ Hsafe Hn Hv) as (zmax & Hmax & Hlo & Hhi).
    exists (zmax + 1). rewrite Hmax. simpl. split_and!.
    + apply toNumber_safe. lia.
    + intros n' z Hn' Hv'. apply (Hin n' _ Hn'), Math_max_ge in Hv'.
      rewrite Hmax in Hv'. simpl in Hv'. lia.
    + right. exists n. split; [done|]. rewrite Hv, Hmax. do 2 f_equal. lia.
    + lia.
    + unfold MAX_SAFE_INTEGER in *. lia.
Qed.

(** The id of the [k]-th node of a batch that starts at a safe integer. *)
Lemma id_addedNode first total count (k : nat) file :
  - MAX_SAFE_INTEGER <= first ->
  first + Z.of_nat total <= MAX_SAFE_INTEGER + 1 ->
  (k < total)%nat ->
  id (addedNode (Finite first) count k file) = decimalString (first + Z.of_nat k).
Proof.
  intros Hlo Hhi Hk. unfold addedNode, newNodeFor, Num_add. cbn [id].
  rewrite toNumber_safe by lia. apply toString_safe. lia.
Qed.

Lemma ids_markedNodes ns files : id <$> markedNodes ns files = id <$> ns.
Proof. unfold markedNodes. rewrite <- list_fmap_compose. by apply list_fmap_ext. Qed.

Lemma reconcileNodes_batchIds ns files :
  safeIds ns (length (novelFiles ns files)) ->
  batchIds ns (novelFiles ns files) (reconcileNodes ns files).
Proof.
  intros Hsafe.
  destruct (nextNodeIdOf_isNextId _ _ Hsafe) as (first & Hfirst & Hnext & Hlo & Hhi).
  exists first. split; [exact Hnext|].
  rewrite reconcileNodes_app, Hfirst. split.
  - by rewrite length_app, length_markedNodes, length_imap.
  - intros k file Hk. eexists. split_and!.
    + rewrite lookup_app_r by (rewrite length_markedNodes; lia).
      rewrite length_markedNodes, Nat.add_comm, Nat.add_sub.
      rewrite list_lookup_imap, Hk. reflexivity.
    + apply lookup_lt_Some in Hk. by eapply id_addedNode.
    + reflexivity.
Qed.

Lemma reconcileNodes_NoDup_ids ns files :
  safeIds ns (length (novelFiles ns files)) ->
  NoDup (id <$> ns) -> NoDup (id <$> reconcileNodes ns files).
Proof.
  intros Hsafe Hnd.
  destruct (nextNodeIdOf_isNextId _ _ Hsafe) as (first & Hfirst & [Hlt _] & Hlo & Hhi).
  rewrite reconcileNodes_app, Hfirst, fmap_app, ids_markedNodes.
  apply NoDup_app. split_and!.
  - exact Hnd.
  - intros s Hs Hs'.
    apply list_elem_of_fmap in Hs as (n & -> & Hn).
    apply list_elem_of_fmap in Hs' as (m & Hm & Hin).
    apply list_elem_of_lookup in Hin as (k & Hk).
    rewrite list_lookup_imap in Hk.
    destruct (novelFiles ns files !! k) as [file|] eqn:Hfile; [|done].
    apply lookup_lt_Some in Hfile. simpl in Hk. injection Hk as <-.
    rewrite (id_addedNode first _ _ k file Hlo Hhi Hfile) in Hm.
    assert (Hp : parseInt (id n) = Some (Finite (first + Z.of_nat k))).
    { rewrite Hm. apply parseInt_decimalString. lia. }
    specialize (Hlt n _ Hn Hp). lia.
  - apply NoDup_alt. intros i j s Hi Hj.
    rewrite list_lookup_fmap, list_lookup_imap in Hi, Hj.
    destruct (novelFiles ns files !! i) as [fi|] eqn:Hfi; [|done].
    destruct (novelFiles ns files !! j) as [fj|] eqn:Hfj; [|done].
    apply lookup_lt_Some in Hfi, Hfj. cbn [fmap option_fmap option_map] in Hi, Hj.
    rewrite (id_addedNode first _ _ i fi Hlo Hhi Hfi) in Hi.
    rewrite (id_addedNode first _ _ j fj Hlo Hhi Hfj) in Hj.
    simplify_eq.
    match goal with
    | H : decimalString _ = decimalString _ |- _ => apply decimalString_inj in H
    end.
    lia.
Qed.

End Ids.

(** ** The reconciliation routines as functions of the graph and the listing *)

Section Reconcile.

Implicit Types (w : World) (ns : list NodeState) (files : list string).

Lemma nodes_initializedWorld w :
  nodes (state (initializedWorld w)) =
    reconcileNodes (configNodes (backend w)) (listedFiles (backend w)).
Proof.
  unfold initializedWorld.
  destruct (novelFiles _ _) eqn:H; simpl; [|done].
  by rewrite novelFiles_nil_reconcileNodes.
Qed.

Lemma edges_initializedWorld w :
  edges (state (initializedWorld w)) = configEdges (backend w).
Proof. unfold initializedWorld. by destruct (novelFiles _ _). Qed.

(** [initializeWorkflowState] returns when the service accepts the write, and
    also when there is nothing to write. *)
Lemma initializeWorkflowState_returns w :
  saveResponse (backend w) = SaveOk \/
  novelFiles (configNodes (backend w)) (listedFiles (backend w)) = [] ->
  initializeWorkflowState w =
    (initializedWorld w,
     Return (toFlowNode <$> reconcileNodes (configNodes (backend w))
                                           (listedFiles (backend w)),
             configEdges (backend w))).
Proof.
  intros H. rewrite initializeWorkflowState_body, nodes_initializedWorld.
  destruct (novelFiles _ _) eqn:Hn; [done|].
  destruct H as [->|]; done.
Qed.

Lemma nodes_reEnumerated w :
  nodes (state (fst (reEnumerateMarkdownFiles w))) =
    reconcileNodes (nodes (state w)) (listedFiles (backend w)).
Proof.
  rewrite reEnumerateMarkdownFiles_run.
  by destruct (saveError (saveResponse (backend w))).
Qed.

Lemma edges_reEnumerated w :
  edges (state (fst (reEnumerateMarkdownFiles w))) = edges (state w).
Proof.
  rewrite reEnumerateMarkdownFiles_run.
  by destruct (saveError (saveResponse (backend w))).
Qed.

(** C7, as the claim states it, fails: the ids are computed in doubles.
    The graph has the single id 9007199254740992 (2^53) and the listing has
    one new file; 2^53 + 1 is not a double and the sum is 2^53 again, so the
    new node gets the id 9007199254740992 as well, by either routine: its
    id is not the numeral of an integer above the largest id. *)
Lemma new_node_ids_counterexample :
  let w := world_big_id in
  let novel := novelFiles (nodes (state w)) (listedFiles (backend w)) in
  configNodes (backend w) = nodes (state w) /\
  id <$> nodes (state w) = ["9007199254740992"] /\
  parseInt "9007199254740992" = Some (Finite 9007199254740992) /\
  novel = ["b.md"] /\
  id <$> nodes (state (fst (initializeWorkflowState w)))
    = ["9007199254740992"; "9007199254740992"] /\
  id <$> nodes (state (fst (reEnumerateMarkdownFiles w)))
    = ["9007199254740992"; "9007199254740992"] /\
  ~ batchIds (nodes (state w)) novel (nodes (state (fst (initializeWorkflowState w)))) /\
  ~ batchIds (nodes (state w)) novel (nodes (state (fst (reEnumerateMarkdownFiles w)))).
Proof.
  assert (Hno : forall after first,
            id <$> after = ["9007199254740992"; "9007199254740992"] ->
            isNextId (nodes (state world_big_id)) first ->
            (forall (k : nat) file,
               ["b.md"] !! k = Some file ->
               exists n, after !! (1 + k)%nat = Some n /\
                         id n = decimalString (first + Z.of_nat k) /\
                         markdownPath (data n) = workflowPath file) ->
            False).
  { intros after first Hids [Hlt _] Hk.
    destruct (Hk 0%nat "b.md" eq_refl) as (n & Hn & Hid & _).
    assert (Hsame : id n = decimalString 9007199254740992).
    { apply (f_equal (fun l => l !! 1%nat)) in Hids.
      rewrite list_lookup_fmap in Hids. simpl in Hn. rewrite Hn in Hids.
      by injection Hids. }
    rewrite Hid in Hsame. apply decimalString_inj in Hsame.
    assert (Hin : node_with "9007199254740992" "/workflows/a.md" (Some false)
                    ∈ nodes (state world_big_id)) by (by left).
    specialize (Hlt _ 9007199254740992 Hin eq_refl). lia. }
  intros w novel. split_and!; [reflexivity..| |].
  - intros (first & Hnext & _ & Hk).
    by apply (Hno (nodes (state (fst (initializeWorkflowState w)))) first).
  - intros (first & Hnext & _ & Hk).
    by apply (Hno (nodes (state (fst (reEnumerateMarkdownFiles w)))) first).
Qed.

(** C7, amended.  While the ids stay among the safe integers (every id
    that parses as a number is an integer from [- MAX_SAFE_INTEGER] on and
    leaves room below [MAX_SAFE_INTEGER] for the new nodes), the first id of
    a batch of new nodes is the decimal numeral of the next integer above
    the largest id that parses as a number (1 when no id does, ids that do
    not parse being ignored), and the following new nodes get the following
    integers, one node per novel file in the order of the files.  This
    holds for [initializeWorkflowState], which returns when the write is
    accepted, and for [reEnumerateMarkdownFiles]. *)
Theorem new_node_ids_are_consecutive w :
  (saveResponse (backend w) = SaveOk ->
   safeIds (configNodes (backend w))
           (length (novelFiles (configNodes (backend w)) (listedFiles (backend w)))) ->
   exists w' r,
     initializeWorkflowState w = (w', Return r) /\
     batchIds (configNodes (backend w))
              (novelFiles (configNodes (backend w)) (listedFiles (backend w)))
              (nodes (state w'))) /\
  (safeIds (nodes (state w))
           (length (novelFiles (nodes (state w)) (listedFiles (backend w)))) ->
   batchIds (nodes (state w))
            (novelFiles (nodes (state w)) (listedFiles (backend w)))
            (nodes (state (fst (reEnumerateMarkdownFiles w))))).
Proof.
  split.
  - intros Hok Hsafe. eexists _, _. split.
    + apply initializeWorkflowState_returns. by left.
    + rewrite nodes_initializedWorld. by apply reconcileNodes_batchIds.
  - intros Hsafe. rewrite nodes_reEnumerated. by apply reconcileNodes_batchIds.
Qed.

Lemma new_node_ids_are_consecutive_witness :
  let w := world_mixed_ids in
  saveResponse (backend w) = SaveOk /\
  safeIds (configNodes (backend w))
          (length (novelFiles (configNodes (backend w)) (listedFiles (backend w)))) /\
  safeIds (nodes (state w))
          (length (novelFiles (nodes (state w)) (listedFiles (backend w)))) /\
  (exists w' r,
     initializeWorkflowState w = (w', Return r) /\
     batchIds (configNodes (backend w))
              (novelFiles (configNodes (backend w)) (listedFiles (backend w)))
              (nodes (state w'))) /\
  batchIds (nodes (state w))
           (novelFiles (nodes (state w)) (listedFiles (backend w)))
           (nodes (state (fst (reEnumerateMarkdownFiles w)))).
Proof.
  intros w.
  assert (Hsafe : safeIds (nodes (state w))
            (length (novelFiles (nodes (state w)) (listedFiles (backend w))))).
  { apply (bool_decide_unpack _). vm_compute. exact I. }
  split_and!; [reflexivity|exact Hsafe|exact Hsafe|..].
  - apply (new_node_ids_are_consecutive w); [reflexivity|exact Hsafe].
  - apply (new_node_ids_are_consecutive w). exact Hsafe.
Defined.

Example new_node_ids_mixed :
  id <$> nodes (state (fst (initializeWorkflowState world_mixed_ids)))
    = ["3"; "draft"; "7"; "8"; "9"].
Proof. reflexivity. Qed.

(** C8, as the claim states it, fails: from the single id 9007199254740992
    and one new file, either routine ends with that id twice. *)
Lemma node_ids_collide_counterexample :
  let w := world_big_id in
  NoDup (id <$> configNodes (backend w)) /\
  NoDup (id <$> nodes (state w)) /\
  saveResponse (backend w) = SaveOk /\
  (exists w' r,
     initializeWorkflowState w = (w', Return r) /\
     id <$> nodes (state w') = ["9007199254740992"; "9007199254740992"] /\
     ~ NoDup (id <$> nodes (state w'))) /\
  ~ NoDup (id <$> nodes (state (fst (reEnumerateMarkdownFiles w)))).
Proof.
  assert (Hone : NoDup ["9007199254740992"]).
  { apply (bool_decide_unpack _). vm_compute. exact I. }
  assert (Htwo : ~ NoDup ["9007199254740992"; "9007199254740992"]).
  { intros H. apply NoDup_cons in H as [H _]. apply H. by left. }
  intros w. split_and!; [exact Hone|exact Hone|reflexivity| |exact Htwo].
  eexists _, _. split; [apply initializeWorkflowState_returns; by left|].
  split; [reflexivity|exact Htwo].
Qed.

(** C8, amended.  While the ids stay among the safe integers,
    reconciliation keeps the node ids pairwise distinct: when the ids of
    the graph it starts from are distinct, so are the ids of the graph it
    ends with.  [initializeWorkflowState] starts from the loaded
    configuration, [reEnumerateMarkdownFiles] from the state in memory. *)
Theorem node_ids_stay_distinct w :
  (NoDup (id <$> configNodes (backend w)) ->
   safeIds (configNodes (backend w))
           (length (novelFiles (configNodes (backend w)) (listedFiles (backend w)))) ->
   saveResponse (backend w) = SaveOk ->
   exists w' r,
     initializeWorkflowState w = (w', Return r) /\
     NoDup (id <$> nodes (state w'))) /\
  (NoDup (id <$> nodes (state w)) ->
   safeIds (nodes (state w))
           (length (novelFiles (nodes (state w)) (listedFiles (backend w)))) ->
   NoDup (id <$> nodes (state (fst (reEnumerateMarkdownFiles w))))).
Proof.
  split.
  - intros Hnd Hsafe Hok. eexists _, _. split.
    + apply initializeWorkflowState_returns. by left.
    + rewrite nodes_initializedWorld. by apply reconcileNodes_NoDup_ids.
  - intros Hnd Hsafe. rewrite nodes_reEnumerated. by apply reconcileNodes_NoDup_ids.
Qed.

Lemma node_ids_stay_distinct_witness :
  let w := world_mixed_ids in
  NoDup (id <$> configNodes (backend w)) /\
  safeIds (configNodes (backend w))
          (length (novelFiles (configNodes (backend w)) (listedFiles (backend w)))) /\
  saveResponse (backend w) = SaveOk /\
  NoDup (id <$> nodes (state w)) /\
  safeIds (nodes (state w))
          (length (novelFiles (nodes (state w)) (listedFiles (backend w)))) /\
  (exists w' r,
     initializeWorkflowState w = (w', Return r) /\
     NoDup (id <$> nodes (state w'))) /\
  NoDup (id <$> nodes (state (fst (reEnumerateMarkdownFiles w)))).
Proof.
  intros w.
  assert (Hnd : NoDup ["3"; "draft"; "7"]).
  { apply (bool_decide_unpack _). vm_compute. exact I. }
  assert (Hsafe : safeIds (nodes (state w))
            (length (novelFiles (nodes (state w)) (listedFiles (backend w))))).
  { apply (bool_decide_unpack _). vm_compute. exact I. }
  split_and!; [exact Hnd|exact Hsafe|reflexivity|exact Hnd|exact Hsafe|..].
  - apply (node_ids_stay_distinct w); [exact Hnd|exact Hsafe|reflexivity].
  - apply (node_ids_stay_distinct w); [exact Hnd|exact Hsafe].
Defined.

(** Ids beyond the safe integers.  From the id 10^21 the next id is
    printed in exponent notation, and [parseInt] reads that id as 1. *)
Example new_node_id_in_exponent_notation :
  let ns := [node_with "1000000000000000000000" "/workflows/a.md" (Some false)] in
  id <$> reconcileNodes ns ["a.md"; "b.md"] = ["1000000000000000000000"; "1e+21"] /\
  parseInt "1e+21" = Some (Finite 1).
Proof. vm_compute. by split. Qed.

(** *** Availability *)

Lemma existingFilesOf_elem files (p : string) :
  bool_decide (p ∈ existingFilesOf files) = bool_decide (p ∈ workflowPath <$> files).
Proof. apply bool_decide_ext. unfold existingFilesOf. by rewrite elem_of_list_to_set. Qed.

Lemma markOrphaned_matches files (n : NodeState) :
  availabilityMatches files (markOrphaned (existingFilesOf files) n).
Proof.
  unfold availabilityMatches, markOrphaned. simpl. by rewrite existingFilesOf_elem.
Qed.

Lemma novelFiles_listed ns files file :
  file ∈ novelFiles ns files -> file ∈ files.
Proof. unfold novelFiles, newFilesOf. by intros [_ ?]%list_elem_of_filter. Qed.

Lemma addedNode_matches ns files nextNodeId count k file :
  novelFiles ns files !! k = Some file ->
  availabilityMatches files (addedNode nextNodeId count k file).
Proof.
  intros Hk. unfold availabilityMatches, addedNode, newNodeFor. simpl.
  rewrite bool_decide_true; [done|].
  apply list_elem_of_fmap_2. eapply novelFiles_listed, list_elem_of_lookup_2, Hk.
Qed.

Lemma reconcileNodes_availability ns files :
  Forall (availabilityMatches files) (reconcileNodes ns files).
Proof.
  rewrite reconcileNodes_app. apply Forall_app. split.
  - unfold markedNodes. apply Forall_fmap, Forall_true. intros n.
    apply markOrphaned_matches.
  - apply Forall_lookup. intros k n Hk.
    rewrite list_lookup_imap in Hk.
    destruct (novelFiles ns files !! k) as [file|] eqn:Hf; simplify_eq/=.
    by eapply addedNode_matches.
Qed.

Lemma reconcileNodes_new_available ns files (i : nat) (n : NodeState) :
  (length ns <= i)%nat ->
  reconcileNodes ns files !! i = Some n ->
  isOrphaned n = Some false.
Proof.
  intros Hi. rewrite reconcileNodes_app.
  rewrite lookup_app_r by (rewrite length_markedNodes; lia).
  rewrite list_lookup_imap.
  destruct (novelFiles ns files !! _); intros; by simplify_eq/=.
Qed.

(** C3.  After a run with the listing [D] obtained from the service, every
    node of the graph is flagged available (not orphaned) exactly when its
    document path is [/workflows/] followed by a name in [D], and the nodes
    created in the run are flagged available.  [initializeWorkflowState]
    returns when the write is accepted; for [reEnumerateMarkdownFiles] the
    state in memory is as stated whatever the write does. *)
Theorem availability_after_reconciliation w D :
  enumerateResponse (backend w) = Some D ->
  (saveResponse (backend w) = SaveOk ->
   exists w' r,
     initializeWorkflowState w = (w', Return r) /\
     Forall (availabilityMatches D) (nodes (state w')) /\
     forall (i : nat) n,
       (length (configNodes (backend w)) <= i)%nat ->
       nodes (state w') !! i = Some n -> isOrphaned n = Some false) /\
  Forall (availabilityMatches D) (nodes (state (fst (reEnumerateMarkdownFiles w)))) /\
  forall (i : nat) n,
    (length (nodes (state w)) <= i)%nat ->
    nodes (state (fst (reEnumerateMarkdownFiles w))) !! i = Some n ->
    isOrphaned n = Some false.
Proof.
  intros HD.
  assert (Hfiles : listedFiles (backend w) = D) by (unfold listedFiles; by rewrite HD).
  split_and!.
  - intros Hok. eexists _, _. split_and!.
    + apply initializeWorkflowState_returns. by left.
    + rewrite nodes_initializedWorld, Hfiles. apply reconcileNodes_availability.
    + intros i n Hi. rewrite nodes_initializedWorld.
      by apply reconcileNodes_new_available.
  - rewrite nodes_reEnumerated, Hfiles. apply reconcileNodes_availability.
  - intros i n Hi. rewrite nodes_reEnumerated.
    by apply reconcileNodes_new_available.
Qed.

Lemma availability_after_reconciliation_witness :
  let w := world_mixed_ids in
  let D := ["b.md"; "c.md"; "a.md"; "d.md"] in
  enumerateResponse (backend w) = Some D /\
  saveResponse (backend w) = SaveOk /\
  exists w' r,
    initializeWorkflowState w = (w', Return r) /\
    Forall (availabilityMatches D) (nodes (state w')) /\
    forall (i : nat) n,
      (length (configNodes (backend w)) <= i)%nat ->
      nodes (state w') !! i = Some n -> isOrphaned n = Some false.
Proof.
  intros w D. split_and!; [reflexivity..|].
  apply (availability_after_reconciliation w D); reflexivity.
Defined.

Example availability_mixed :
  isOrphaned <$> nodes (state (fst (initializeWorkflowState world_mixed_ids)))
    = [Some false; Some true; Some false; Some false; Some false].
Proof. reflexivity. Qed.

(** *** Idempotence *)

Lemma set_isOrphaned_same (n : NodeState) : set_isOrphaned (isOrphaned n) n = n.
Proof. by destruct n. Qed.

Lemma markedNodes_fixed ns files :
  Forall (availabilityMatches files) ns -> markedNodes ns files = ns.
Proof.
  intros H. unfold markedNodes. rewrite <- (list_fmap_id ns) at 2.
  apply Forall_fmap_ext_1. eapply Forall_impl; [exact H|].
  intros n Hn. unfold markOrphaned. rewrite existingFilesOf_elem.
  unfold availabilityMatches in Hn. rewrite <- Hn. apply set_isOrphaned_same.
Qed.

Lemma paths_markedNodes ns files :
  existingPathsOf (markedNodes ns files) = existingPathsOf ns.
Proof.
  unfold existingPathsOf, markedNodes. f_equal.
  rewrite <- list_fmap_compose. by apply list_fmap_ext.
Qed.

(** Every listed file is the document of a node after reconciliation. *)
Lemma reconcileNodes_covers ns files file :
  file ∈ files -> workflowPath file ∈ existingPathsOf (reconcileNodes ns files).
Proof.
  intros Hf. unfold existingPathsOf. rewrite elem_of_list_to_set.
  rewrite reconcileNodes_app, fmap_app, elem_of_app.
  destruct (decide (workflowPath file ∈ existingPathsOf (markedNodes ns files)))
    as [Hin|Hnin].
  - left. unfold existingPathsOf in Hin. by rewrite elem_of_list_to_set in Hin.
  - right.
    assert (Hnovel : file ∈ novelFiles ns files).
    { unfold novelFiles, newFilesOf. by apply list_elem_of_filter. }
    apply list_elem_of_lookup in Hnovel as (k & Hk).
    apply list_elem_of_fmap.
    exists (addedNode (nextNodeIdOf ns) (length ns) k file). split; [done|].
    apply list_elem_of_lookup. exists k. by rewrite list_lookup_imap, Hk.
Qed.

Lemma novelFiles_reconcileNodes ns files :
  novelFiles (reconcileNodes ns files) files = [].
Proof.
  unfold novelFiles, newFilesOf. rewrite paths_markedNodes.
  destruct (filter _ files) as [|file rest] eqn:Hfilter; [done|].
  assert (Hin : file ∈ filter
            (fun file => workflowPath file ∉ existingPathsOf (reconcileNodes ns files))
            files) by (rewrite Hfilter; left).
  apply list_elem_of_filter in Hin as [Hn Hf].
  by apply reconcileNodes_covers with (ns := ns) in Hf.
Qed.

Lemma reconcileNodes_idempotent ns files :
  reconcileNodes (reconcileNodes ns files) files = reconcileNodes ns files.
Proof.
  rewrite novelFiles_nil_reconcileNodes by apply novelFiles_reconcileNodes.
  apply markedNodes_fixed, reconcileNodes_availability.
Qed.

Lemma listedFiles_initializedWorld w :
  listedFiles (backend (initializedWorld w)) = listedFiles (backend w).
Proof. unfold initializedWorld. by destruct (novelFiles _ _). Qed.

Lemma saveResponse_initializedWorld w :
  saveResponse (backend (initializedWorld w)) = saveResponse (backend w).
Proof. unfold initializedWorld. by destruct (novelFiles _ _). Qed.

Lemma configEdges_initializedWorld w :
  configEdges (backend (initializedWorld w)) = configEdges (backend w).
Proof.
  unfold initializedWorld, configEdges, loadedConfig.
  destruct (novelFiles _ _); simpl; [done|].
  by destruct (configReadable (backend w)).
Qed.

Lemma configNodes_written (c : WorkflowState) (b : Backend) :
  configNodes (tick (withConfigFile c (tick b))) =
    if configReadable b then nodes c else configNodes b.
Proof. unfold configNodes, loadedConfig. simpl. by destruct (configReadable b). Qed.

(** The configuration that a second run loads is the one the first run
    loaded or the one it wrote; reconciling either gives the same nodes. *)
Lemma reconcileNodes_initializedWorld w :
  reconcileNodes (configNodes (backend (initializedWorld w))) (listedFiles (backend w)) =
  reconcileNodes (configNodes (backend w)) (listedFiles (backend w)).
Proof.
  unfold initializedWorld.
  destruct (novelFiles _ _) eqn:Hn; cbn [backend]; [done|].
  rewrite configNodes_written.
  destruct (configReadable (backend w)); [|done].
  cbn [nodes]. apply reconcileNodes_idempotent.
Qed.

(** C4.  Reconciliation is idempotent.  A second run of
    [reEnumerateMarkdownFiles] leaves the nodes and edges of the first.  A
    second run of [initializeWorkflowState], be it against the files as the
    first run left them or against the output of the first run served as the
    configuration, returns what the first run returned and leaves the same
    nodes and edges: no node is added or removed, and no flag, position,
    size or id changes. *)
Theorem reconciliation_is_idempotent w :
  (let w1 := fst (reEnumerateMarkdownFiles w) in
   let w2 := fst (reEnumerateMarkdownFiles w1) in
   nodes (state w2) = nodes (state w1) /\ edges (state w2) = edges (state w1)) /\
  (saveResponse (backend w) = SaveOk ->
   exists w1 r1,
     initializeWorkflowState w = (w1, Return r1) /\
     (exists w2,
        initializeWorkflowState w1 = (w2, Return r1) /\
        nodes (state w2) = nodes (state w1) /\
        edges (state w2) = edges (state w1)) /\
     (exists w2,
        initializeWorkflowState
          {| state := state w1; backend := persisted (state w1) (backend w1) |}
          = (w2, Return r1) /\
        nodes (state w2) = nodes (state w1) /\
        edges (state w2) = edges (state w1))).
Proof.
  split.
  - simpl. rewrite !nodes_reEnumerated, !edges_reEnumerated. split; [|done].
    assert (listedFiles (backend (fst (reEnumerateMarkdownFiles w)))
            = listedFiles (backend w)) as ->.
    { rewrite reEnumerateMarkdownFiles_run. unfold afterSave.
      destruct (saveError (saveResponse (backend w))); [|done].
      by destruct (fileWritten _). }
    apply reconcileNodes_idempotent.
  - intros Hok. eexists _, _. split_and!.
    + apply initializeWorkflowState_returns. by left.
    + eexists. split_and!.
      * rewrite initializeWorkflowState_returns
          by (left; by rewrite saveResponse_initializedWorld).
        rewrite listedFiles_initializedWorld, reconcileNodes_initializedWorld,
          configEdges_initializedWorld. reflexivity.
      * rewrite !nodes_initializedWorld, listedFiles_initializedWorld.
        apply reconcileNodes_initializedWorld.
      * by rewrite !edges_initializedWorld, configEdges_initializedWorld.
    + set (w1 := initializedWorld w).
      set (w1' := {| state := state w1; backend := persisted (state w1) (backend w1) |}).
      assert (Hfiles : listedFiles (backend w1') = listedFiles (backend w)).
      { unfold w1', w1. simpl. unfold listedFiles. simpl.
        apply listedFiles_initializedWorld. }
      assert (Hns : configNodes (backend w1') = nodes (state w1)) by done.
      assert (Hes : configEdges (backend w1') = edges (state w1)) by done.
      assert (Hsave : saveResponse (backend w1') = SaveOk).
      { unfold w1', w1. simpl. by rewrite saveResponse_initializedWorld. }
      eexists. split_and!.
      * rewrite initializeWorkflowState_returns by (by left).
        rewrite Hfiles, Hns, Hes. unfold w1.
        rewrite nodes_initializedWorld, edges_initializedWorld,
          reconcileNodes_idempotent. reflexivity.
      * rewrite nodes_initializedWorld, Hfiles, Hns. unfold w1.
        rewrite nodes_initializedWorld. apply reconcileNodes_idempotent.
      * rewrite edges_initializedWorld. exact Hes.
Qed.

Lemma reconciliation_is_idempotent_witness :
  saveResponse (backend world_mixed_ids) = SaveOk /\
  exists w1 r1,
    initializeWorkflowState world_mixed_ids = (w1, Return r1) /\
    (exists w2,
       initializeWorkflowState w1 = (w2, Return r1) /\
       nodes (state w2) = nodes (state w1) /\
       edges (state w2) = edges (state w1)) /\
    (exists w2,
       initializeWorkflowState
         {| state := state w1; backend := persisted (state w1) (backend w1) |}
         = (w2, Return r1) /\
       nodes (state w2) = nodes (state w1) /\
       edges (state w2) = edges (state w1)).
Proof.
  split; [reflexivity|].
  apply (reconciliation_is_idempotent world_mixed_ids). reflexivity.
Defined.

End Reconcile.

(** ** Failures of the service *)

Section Failures.

Implicit Types (w : World) (ns : list NodeState).

(** C1, as the claim states it, fails: when the listing request fails the
    cached flags are not kept.  The nodes with the flags false, unset and
    true are all flagged orphaned, by either routine. *)
Lemma listing_failure_counterexample :
  enumerateResponse (backend world_listing_fails) = None /\
  isOrphaned <$> configNodes (backend world_listing_fails)
    = [Some false; None; Some true] /\
  isOrphaned <$> nodes (state (fst (initializeWorkflowState world_listing_fails)))
    = [Some true; Some true; Some true] /\
  isOrphaned <$> nodes (state (fst (reEnumerateMarkdownFiles world_listing_fails)))
    = [Some true; Some true; Some true] /\
  isOrphaned <$> nodes (state (fst (initializeWorkflowState world_listing_fails)))
    <> isOrphaned <$> configNodes (backend world_listing_fails).
Proof. split_and!; [reflexivity..|discriminate]. Qed.

Lemma markedNodes_no_files ns :
  markedNodes ns [] = set_isOrphaned (Some true) <$> ns.
Proof.
  unfold markedNodes. apply list_fmap_ext. intros _ n _.
  unfold markOrphaned. by rewrite bool_decide_false by set_solver.
Qed.

Lemma reconcileNodes_no_files ns :
  reconcileNodes ns [] = set_isOrphaned (Some true) <$> ns.
Proof.
  rewrite novelFiles_nil_reconcileNodes by done. apply markedNodes_no_files.
Qed.

(** C1, amended.  When the listing request fails, [enumerateMarkdownFiles]
    answers with the empty array and reconciliation runs on it: both
    routines flag every existing node orphaned, add no node and change
    nothing else of a node, and [initializeWorkflowState] returns. *)
Theorem listing_failure_marks_all_orphaned w :
  enumerateResponse (backend w) = None ->
  enumerateMarkdownFiles w = (w, Return []) /\
  (exists w' r,
     initializeWorkflowState w = (w', Return r) /\
     nodes (state w') = set_isOrphaned (Some true) <$> configNodes (backend w)) /\
  nodes (state (fst (reEnumerateMarkdownFiles w)))
    = set_isOrphaned (Some true) <$> nodes (state w).
Proof.
  intros Hfail.
  assert (Hfiles : listedFiles (backend w) = []) by (unfold listedFiles; by rewrite Hfail).
  split_and!.
  - by rewrite enumerateMarkdownFiles_run, Hfiles.
  - eexists _, _. split.
    + apply initializeWorkflowState_returns. right. by rewrite Hfiles.
    + rewrite nodes_initializedWorld, Hfiles. apply reconcileNodes_no_files.
  - rewrite nodes_reEnumerated, Hfiles. apply reconcileNodes_no_files.
Qed.

Lemma listing_failure_marks_all_orphaned_witness :
  let w := world_listing_fails in
  enumerateResponse (backend w) = None /\
  enumerateMarkdownFiles w = (w, Return []) /\
  (exists w' r,
     initializeWorkflowState w = (w', Return r) /\
     nodes (state w') = set_isOrphaned (Some true) <$> configNodes (backend w)) /\
  nodes (state (fst (reEnumerateMarkdownFiles w)))
    = set_isOrphaned (Some true) <$> nodes (state w).
Proof.
  intros w. split; [reflexivity|].
  apply (listing_failure_marks_all_orphaned w). reflexivity.
Defined.

(** C5, as the claim states it, fails: when the write fails neither
    routine returns a graph.  [initializeWorkflowState] throws the error of
    the write and leaves the state in memory without the four new nodes;
    [reEnumerateMarkdownFiles] throws it as well. *)
Lemma write_failure_counterexample :
  snd (initializeWorkflowState world_save_fails) =
    Throw {| message := "Failed to save workflow config: Internal Server Error" |} /\
  state (fst (initializeWorkflowState world_save_fails)) = initialState /\
  ~ (exists w' r, initializeWorkflowState world_save_fails = (w', Return r)) /\
  ~ (exists w' r, reEnumerateMarkdownFiles world_save_fails = (w', Return r)).
Proof.
  split_and!; [reflexivity..| |]; intros (w' & r & H); vm_compute in H; discriminate.
Qed.

(** C5, amended.  When the write at the end of reconciliation fails, the
    error is thrown to the caller and no graph is returned.
    [initializeWorkflowState], which writes only when there are new files,
    leaves the state in memory as it was before the call;
    [reEnumerateMarkdownFiles] has by then put the merged nodes (the
    existing ones and the new ones) into the state in memory. *)
Theorem write_failure_is_thrown w e :
  saveError (saveResponse (backend w)) = Some e ->
  (novelFiles (configNodes (backend w)) (listedFiles (backend w)) <> [] ->
   exists w',
     initializeWorkflowState w = (w', Throw e) /\
     state w' = state w) /\
  (exists w',
     reEnumerateMarkdownFiles w = (w', Throw e) /\
     nodes (state w') = reconcileNodes (nodes (state w)) (listedFiles (backend w)) /\
     edges (state w') = edges (state w)).
Proof.
  intros He. split.
  - intros Hnew. eexists. split.
    + rewrite initializeWorkflowState_body.
      destruct (novelFiles _ _); [done|]. by rewrite He.
    + done.
  - eexists. split_and!.
    + rewrite reEnumerateMarkdownFiles_run. by rewrite He.
    + done.
    + done.
Qed.

Lemma write_failure_is_thrown_witness :
  let w := world_save_fails in
  let e := {| message := "Failed to save workflow config: Internal Server Error" |} in
  saveError (saveResponse (backend w)) = Some e /\
  novelFiles (configNodes (backend w)) (listedFiles (backend w)) <> [] /\
  (exists w',
     initializeWorkflowState w = (w', Throw e) /\
     state w' = state w) /\
  (exists w',
     reEnumerateMarkdownFiles w = (w', Throw e) /\
     nodes (state w') = reconcileNodes (nodes (state w)) (listedFiles (backend w)) /\
     edges (state w') = edges (state w)).
Proof.
  intros w e.
  assert (He : saveError (saveResponse (backend w)) = Some e) by reflexivity.
  assert (Hnew : novelFiles (configNodes (backend w)) (listedFiles (backend w)) <> [])
    by (vm_compute; discriminate).
  split_and!; [exact He|exact Hnew|..].
  - apply (write_failure_is_thrown w e He). exact Hnew.
  - apply (write_failure_is_thrown w e He).
Defined.

End Failures.

(** * Further properties of the state manager *)

(** ** Removing by id *)

Section Removal.

Implicit Types (w : World) (ns : list NodeState) (es : list Edge).

(** Deleting the first element with a key is filtering the key out when the
    keys are pairwise distinct. *)
Lemma delete_found_filter {A} (key : A -> string) (k : string) (l : list A)
    (i : nat) (x : A) :
  list_find (fun y => key y = k) l = Some (i, x) ->
  NoDup (key <$> l) ->
  delete i l = filter (fun y => key y <> k) l.
Proof.
  revert i. induction l as [|a l IH]; intros i Hfind Hnd; [done|].
  rewrite fmap_cons in Hnd. apply NoDup_cons in Hnd as [Hnotin Hnd].
  cbn in Hfind. destruct (decide (key a = k)) as [Hk|Hk].
  - simplify_eq. rewrite filter_cons_False by (intros H; by apply H).
    match goal with |- delete 0%nat (_ :: ?l') = ?r => change (l' = r) end.
    symmetry. clear IH.
    induction l as [|b l IHl]; [done|].
    rewrite fmap_cons in Hnotin, Hnd.
    apply not_elem_of_cons in Hnotin as [Hne Hnotin].
    apply NoDup_cons in Hnd as [_ Hnd].
    rewrite filter_cons_True by done. f_equal. by apply IHl.
  - destruct (list_find _ l) as [[j y]|] eqn:Hl; simplify_eq/=.
    rewrite filter_cons_True by done. f_equal. by apply IH.
Qed.

Lemma absent_filter {A} (key : A -> string) (k : string) (l : list A) :
  list_find (fun y => key y = k) l = None ->
  filter (fun y => key y <> k) l = l.
Proof.
  intros H. apply list_find_None in H.
  induction l as [|a l IH]; [done|].
  apply Forall_cons in H as [Ha H].
  rewrite filter_cons_True by done. f_equal. by apply IH.
Qed.

Lemma find_after_filter {A} (key : A -> string) (k : string) (l : list A) :
  list_find (fun y => key y = k) (filter (fun y => key y <> k) l) = None.
Proof.
  apply list_find_None, Forall_forall. intros y Hy.
  by apply list_elem_of_filter in Hy as [Hy _].
Qed.

(** X1.  When the node ids are pairwise distinct, [removeNode] returns
    normally and leaves exactly the nodes with another id, in their order,
    so that no node has the id afterwards; the edges are not touched, also
    those that start or end at the removed node. *)
Theorem removeNode_filters_id w nodeId :
  NoDup (id <$> nodes (state w)) ->
  exists w',
    removeNode nodeId w = (w', Return tt) /\
    nodes (state w') = filter (fun n => id n <> nodeId) (nodes (state w)) /\
    findNode nodeId (nodes (state w')) = None /\
    edges (state w') = edges (state w) /\
    backend w' = backend w.
Proof.
  intros Hnd. unfold removeNode. run_M.
  destruct (findNode nodeId (nodes (state w))) as [[i n]|] eqn:Hfind.
  - eexists. split; [reflexivity|]. simpl.
    rewrite (delete_found_filter id nodeId _ i n Hfind Hnd).
    split_and!; try done. apply (find_after_filter id nodeId).
  - eexists. split; [reflexivity|].
    rewrite (absent_filter id nodeId _ Hfind). by split_and!.
Qed.

Lemma removeNode_filters_id_witness :
  NoDup (id <$> nodes (state world_mixed_ids)) /\
  exists w',
    removeNode "draft" world_mixed_ids = (w', Return tt) /\
    nodes (state w') = filter (fun n => id n <> "draft") (nodes (state world_mixed_ids)) /\
    findNode "draft" (nodes (state w')) = None /\
    edges (state w') = edges (state world_mixed_ids) /\
    backend w' = backend world_mixed_ids.
Proof.
  assert (Hnd : NoDup (id <$> nodes (state world_mixed_ids))).
  { apply (bool_decide_unpack _). vm_compute. exact I. }
  split; [exact Hnd|].
  apply (removeNode_filters_id world_mixed_ids "draft" Hnd).
Defined.

(** X2.  [removeOrphanedNodes] returns the number of nodes whose flag is
    set and true, keeps the other nodes (also those whose flag is unset) in
    their order, and leaves no orphaned node: a second call returns 0 and
    changes nothing. *)
Theorem removeOrphanedNodes_count w :
  exists w',
    removeOrphanedNodes w = (w', Return (countOrphaned w)) /\
    nodes (state w') = filter (fun n => isOrphaned n <> Some true) (nodes (state w)) /\
    Z.of_nat (length (nodes (state w')))
      = Z.of_nat (length (nodes (state w))) - countOrphaned w /\
    countOrphaned w' = 0 /\
    removeOrphanedNodes w' = (w', Return 0).
Proof.
  assert (Hfilter : forall ns,
    filter (fun node => negb (truthy (isOrphaned node)) = true) ns
    = filter (fun n => isOrphaned n <> Some true) ns).
  { intros ns. apply list_filter_iff. intros n.
    destruct (isOrphaned n) as [[]|]; simpl; split; congruence. }
  assert (Hlen : forall ns,
    (length (filter (fun n => isOrphaned n <> Some true) ns)
     + length (filter (fun node => truthy (isOrphaned node) = true) ns))%nat
    = length ns).
  { induction ns as [|n ns IH]; [done|].
    destruct (isOrphaned n) as [[]|] eqn:Ho.
    - rewrite filter_cons_False by (intros H; by apply H).
      rewrite (filter_cons_True (fun node => truthy (isOrphaned node) = true))
        by (by rewrite Ho).
      simpl. lia.
    - rewrite filter_cons_True by (by rewrite Ho).
      rewrite (filter_cons_False (fun node => truthy (isOrphaned node) = true))
        by (by rewrite Ho).
      simpl. lia.
    - rewrite filter_cons_True by (by rewrite Ho).
      rewrite (filter_cons_False (fun node => truthy (isOrphaned node) = true))
        by (by rewrite Ho).
      simpl. lia. }
  assert (Hnone : forall ns,
    filter (fun node => truthy (isOrphaned node) = true)
      (filter (fun n => isOrphaned n <> Some true) ns) = []).
  { intros ns. induction ns as [|n ns IH]; [done|].
    destruct (isOrphaned n) as [[]|] eqn:Ho.
    - by rewrite filter_cons_False by (intros H; by apply H).
    - rewrite filter_cons_True by (by rewrite Ho).
      by rewrite filter_cons_False by (by rewrite Ho).
    - rewrite filter_cons_True by (by rewrite Ho).
      by rewrite filter_cons_False by (by rewrite Ho). }
  assert (Hagain : forall ns,
    filter (fun n => isOrphaned n <> Some true)
      (filter (fun n => isOrphaned n <> Some true) ns)
    = filter (fun n => isOrphaned n <> Some true) ns).
  { intros ns. rewrite list_filter_filter. apply list_filter_iff. tauto. }
  exists (withNodes (filter (fun n => isOrphaned n <> Some true) (nodes (state w))) w).
  pose proof (Hlen (nodes (state w))) as Hl.
  unfold removeOrphanedNodes, countOrphaned. run_M. simpl.
  rewrite !Hfilter, Hagain, Hnone. split_and!.
  - do 2 f_equal. lia.
  - done.
  - lia.
  - done.
  - by rewrite Z.sub_diag.
Qed.

End Removal.

(** ** Edges *)

Section Edges.

Implicit Types (w : World) (es : list Edge) (edge : Edge).

Lemma findEdge_app_fresh es edge :
  findEdge (edge_id edge) es = None ->
  findEdge (edge_id edge) (es ++ [edge]) = Some (length es, edge).
Proof.
  intros Hnone. apply list_find_Some. split_and!.
  - by rewrite lookup_app_r, Nat.sub_diag by lia.
  - done.
  - intros j e Hj Hlt. rewrite lookup_app_l in Hj by lia.
    apply list_find_None in Hnone.
    eapply Forall_lookup_1 in Hnone; [|exact Hj]. exact Hnone.
Qed.

(** X3.  [addEdge] never lets two edges share an id: pairwise distinct edge
    ids stay pairwise distinct.  After the call an edge with the id of the
    argument is in the state; when one was there before, the state is left
    as it was, even if the argument differs from that edge. *)
Theorem addEdge_keeps_ids_distinct w edge :
  NoDup (edge_id <$> edges (state w)) ->
  exists w',
    addEdge edge w = (w', Return tt) /\
    NoDup (edge_id <$> edges (state w')) /\
    is_Some (findEdge (edge_id edge) (edges (state w'))) /\
    (is_Some (findEdge (edge_id edge) (edges (state w))) -> w' = w) /\
    nodes (state w') = nodes (state w).
Proof.
  intros Hnd. unfold addEdge. run_M.
  destruct (findEdge (edge_id edge) (edges (state w))) as [[i e]|] eqn:Hfind.
  - exists w. by split_and!.
  - eexists. split; [reflexivity|]. simpl. split_and!.
    + rewrite fmap_app. apply NoDup_app.
      split; [done|split; [|apply NoDup_singleton]].
      intros s Hs ->%list_elem_of_singleton.
      apply list_elem_of_fmap in Hs as (e & He & Hin).
      apply list_find_None in Hfind.
      rewrite Forall_forall in Hfind. by apply (Hfind e).
    + rewrite findEdge_app_fresh by done. by eexists.
    + by intros [? ?].
    + done.
Qed.

Lemma addEdge_keeps_ids_distinct_witness :
  NoDup (edge_id <$> edges (state world_mixed_ids)) /\
  exists w',
    addEdge edge_7_8 world_mixed_ids = (w', Return tt) /\
    NoDup (edge_id <$> edges (state w')) /\
    is_Some (findEdge (edge_id edge_7_8) (edges (state w'))) /\
    (is_Some (findEdge (edge_id edge_7_8) (edges (state world_mixed_ids))) ->
     w' = world_mixed_ids) /\
    nodes (state w') = nodes (state world_mixed_ids).
Proof.
  assert (Hnd : NoDup (edge_id <$> edges (state world_mixed_ids))).
  { apply (bool_decide_unpack _). vm_compute. exact I. }
  split; [exact Hnd|].
  apply (addEdge_keeps_ids_distinct world_mixed_ids edge_7_8 Hnd).
Defined.

(** X4.  Adding an edge whose id is new and removing it by that id is a
    round trip: the world is as before. *)
Theorem addEdge_removeEdge_round_trip w edge :
  findEdge (edge_id edge) (edges (state w)) = None ->
  exists w1,
    addEdge edge w = (w1, Return tt) /\
    edges (state w1) = edges (state w) ++ [edge] /\
    removeEdge (edge_id edge) w1 = (w, Return tt).
Proof.
  intros Hnone. unfold addEdge, removeEdge. run_M. rewrite Hnone.
  eexists. split_and!; [reflexivity|reflexivity|]. simpl.
  rewrite findEdge_app_fresh by done.
  assert (delete (length (edges (state w))) (edges (state w) ++ [edge])
          = edges (state w)) as ->.
  { by rewrite delete_middle, app_nil_r. }
  by destruct w as [[] ?].
Qed.

Lemma addEdge_removeEdge_round_trip_witness :
  findEdge (edge_id edge_7_8) (edges (state world_mixed_ids)) = None /\
  exists w1,
    addEdge edge_7_8 world_mixed_ids = (w1, Return tt) /\
    edges (state w1) = edges (state world_mixed_ids) ++ [edge_7_8] /\
    removeEdge (edge_id edge_7_8) w1 = (world_mixed_ids, Return tt).
Proof.
  split; [reflexivity|].
  apply (addEdge_removeEdge_round_trip world_mixed_ids edge_7_8). reflexivity.
Defined.

(** X5.  When the edge ids are pairwise distinct, [removeEdge] leaves
    exactly the edges with another id, in their order; an id that no edge
    has is ignored without an error and without a change. *)
Theorem removeEdge_filters_id w edgeId :
  NoDup (edge_id <$> edges (state w)) ->
  exists w',
    removeEdge edgeId w = (w', Return tt) /\
    edges (state w') = filter (fun e => edge_id e <> edgeId) (edges (state w)) /\
    findEdge edgeId (edges (state w')) = None /\
    nodes (state w') = nodes (state w) /\
    (findEdge edgeId (edges (state w)) = None -> w' = w).
Proof.
  intros Hnd. unfold removeEdge. run_M.
  destruct (findEdge edgeId (edges (state w))) as [[i e]|] eqn:Hfind.
  - eexists. split; [reflexivity|]. simpl.
    rewrite (delete_found_filter edge_id edgeId _ i e Hfind Hnd).
    split_and!; try done. apply (find_after_filter edge_id edgeId).
  - eexists. split; [reflexivity|].
    rewrite (absent_filter edge_id edgeId _ Hfind). by split_and!.
Qed.

Lemma removeEdge_filters_id_witness :
  NoDup (edge_id <$> edges (state world_mixed_ids)) /\
  exists w',
    removeEdge "e3-7" world_mixed_ids = (w', Return tt) /\
    edges (state w') = filter (fun e => edge_id e <> "e3-7") (edges (state world_mixed_ids)) /\
    findEdge "e3-7" (edges (state w')) = None /\
    nodes (state w') = nodes (state world_mixed_ids) /\
    (findEdge "e3-7" (edges (state world_mixed_ids)) = None -> w' = world_mixed_ids).
Proof.
  assert (Hnd : NoDup (edge_id <$> edges (state world_mixed_ids))).
  { apply (bool_decide_unpack _). vm_compute. exact I. }
  split; [exact Hnd|].
  apply (removeEdge_filters_id world_mixed_ids "e3-7" Hnd).
Defined.

End Edges.

(** ** Updates of one node *)

Section NodeUpdates.

Implicit Types (w : World) (n : NodeState) (ns : list NodeState).

Lemma fmap_insert_same {B} (f : NodeState -> B) ns (i : nat) n n' :
  ns !! i = Some n -> f n' = f n -> f <$> <[i:=n']> ns = f <$> ns.
Proof.
  intros Hi Hf. rewrite list_fmap_insert, Hf.
  apply list_insert_id. by rewrite list_lookup_fmap, Hi.
Qed.

Lemma sameIdentity_insert w (i : nat) n n' :
  nodes (state w) !! i = Some n ->
  id n' = id n -> data n' = data n -> isOrphaned n' = isOrphaned n ->
  sameIdentity w (withNodes (<[i:=n']> (nodes (state w))) w).
Proof.
  intros Hi H1 H2 H3. unfold sameIdentity. simpl.
  by rewrite !(fmap_insert_same _ _ i n n') by done.
Qed.

Lemma sameIdentity_refl w : sameIdentity w w.
Proof. by unfold sameIdentity. Qed.

(** X6.  Moving, resizing, re-measuring and collapsing a node never touch
    the identity of the graph: after [updateNodePosition], [updateNodeSize],
    [updateNodeMinDimensions] or [toggleNodeCollapse], on a present or an
    absent id, the nodes have the same ids, documents and availability
    flags in the same order, and the edges are the same. *)
Theorem node_updates_keep_identity w nodeId p s m :
  sameIdentity w (fst (updateNodePosition nodeId p w)) /\
  sameIdentity w (fst (updateNodeSize nodeId s w)) /\
  sameIdentity w (fst (updateNodeMinDimensions nodeId m w)) /\
  sameIdentity w (fst (toggleNodeCollapse nodeId w)).
Proof.
  destruct (findNode nodeId (nodes (state w))) as [[i n]|] eqn:Hfind.
  - destruct (findNode_id _ _ _ _ Hfind) as [_ Hi].
    rewrite (updateNodeSize_found _ _ _ _ _ Hfind),
      (toggleNodeCollapse_found _ _ _ _ Hfind).
    unfold updateNodePosition, updateNodeMinDimensions. run_M. rewrite Hfind.
    split_and!; simpl; apply sameIdentity_insert with n; try done.
    + unfold resizedNode. by destruct (isCollapsed n).
    + unfold resizedNode. by destruct (isCollapsed n).
    + unfold resizedNode. by destruct (isCollapsed n).
    + unfold toggledNode. by destruct (isCollapsed n).
    + unfold toggledNode. by destruct (isCollapsed n).
    + unfold toggledNode. by destruct (isCollapsed n).
  - rewrite (toggleNodeCollapse_absent _ _ Hfind).
    unfold updateNodePosition, updateNodeSize, updateNodeMinDimensions.
    run_M. rewrite Hfind. split_and!; apply sameIdentity_refl.
Qed.

(** X7.  A position given to [updateNodePosition] for a node in the graph
    is the position that [getNodeState] reports afterwards, every other
    field of the node is as before, and the other nodes are not changed. *)
Theorem updateNodePosition_then_get w nodeId p (i : nat) n :
  findNode nodeId (nodes (state w)) = Some (i, n) ->
  exists w',
    updateNodePosition nodeId p w = (w', Return tt) /\
    getNodeState nodeId w' = (w', Return (Some (set_position p n))) /\
    forall j : nat, j <> i -> nodes (state w') !! j = nodes (state w) !! j.
Proof.
  intros Hfind. unfold updateNodePosition, getNodeState. run_M. rewrite Hfind.
  eexists. split; [reflexivity|]. simpl. split.
  - rewrite (findNode_insert nodeId _ i n (set_position p n) Hfind).
    + done.
    + by destruct (findNode_id _ _ _ _ Hfind).
  - intros j Hj. by rewrite list_lookup_insert_ne.
Qed.

Lemma updateNodePosition_then_get_witness :
  let p := {| x := 400; y := 120 |} in
  findNode "1" (nodes (state world_300_250)) = Some (0%nat, node_300_250) /\
  exists w',
    updateNodePosition "1" p world_300_250 = (w', Return tt) /\
    getNodeState "1" w' = (w', Return (Some (set_position p node_300_250))) /\
    forall j : nat, j <> 0%nat ->
      nodes (state w') !! j = nodes (state world_300_250) !! j.
Proof.
  intros p. split; [reflexivity|].
  apply (updateNodePosition_then_get world_300_250 "1" p 0%nat node_300_250).
  reflexivity.
Defined.

(** X8.  Expand then collapse is a round trip on the whole world: for a
    collapsed node that shows its collapsed size and remembers the expanded
    size [e], the first [toggleNodeCollapse] reports the size [e] and the
    second one restores the world exactly. *)
Theorem toggle_expand_collapse_round_trip w nodeId (i : nat) n e :
  findNode nodeId (nodes (state w)) = Some (i, n) ->
  isCollapsed n = true ->
  expandedSize n = Some e ->
  size n = collapsedSizeOf n ->
  exists w1,
    toggleNodeCollapse nodeId w
      = (w1, Return {| newSize := e; toggle_isCollapsed := false |}) /\
    toggleNodeCollapse nodeId w1
      = (w, Return {| newSize := size n; toggle_isCollapsed := true |}).
Proof.
  intros Hfind Hc He Hs.
  destruct (findNode_id _ _ _ _ Hfind) as [Hid Hi].
  pose proof (toggleNodeCollapse_found w nodeId i n Hfind) as H1.
  set (w1 := withNodes (<[i:=toggledNode n]> (nodes (state w))) w) in *.
  assert (Hfind1 : findNode nodeId (nodes (state w1)) = Some (i, toggledNode n)).
  { apply findNode_insert with n; [done|]. by rewrite id_toggledNode. }
  pose proof (toggleNodeCollapse_found w1 nodeId i _ Hfind1) as H2.
  assert (Ht1 : size (toggledNode n) = e /\ isCollapsed (toggledNode n) = false).
  { unfold toggledNode. rewrite Hc. simpl. by rewrite He. }
  assert (Htt : toggledNode (toggledNode n) = n).
  { unfold toggledNode at 1. destruct Ht1 as [Hsz ->]. rewrite Hsz.
    unfold toggledNode. rewrite Hc. simpl. rewrite He. simpl.
    unfold collapsedSizeOf in Hs.
    destruct n; simpl in *; by subst. }
  exists w1. split.
  - rewrite H1. destruct Ht1 as [-> ->]. done.
  - rewrite H2, Htt. unfold w1.
    rewrite nodes_withNodes, withNodes_withNodes, list_insert_insert_eq.
    rewrite list_insert_id by done.
    by rewrite withNodes_same, Hc.
Qed.

Lemma toggle_expand_collapse_round_trip_witness :
  let n := toggledNode node_300_250 in
  let w := withNodes [n] world_300_250 in
  let e := {| width := 300; height := 250 |} in
  findNode "1" (nodes (state w)) = Some (0%nat, n) /\
  isCollapsed n = true /\
  expandedSize n = Some e /\
  size n = collapsedSizeOf n /\
  exists w1,
    toggleNodeCollapse "1" w
      = (w1, Return {| newSize := e; toggle_isCollapsed := false |}) /\
    toggleNodeCollapse "1" w1
      = (w, Return {| newSize := size n; toggle_isCollapsed := true |}).
Proof.
  intros n w e. split_and!; [reflexivity..|].
  apply (toggle_expand_collapse_round_trip w "1" 0%nat n e); reflexivity.
Defined.

End NodeUpdates.

(** ** Sizes of new and of measured nodes *)

Section Sizes.

Implicit Types (w : World) (n : NodeState) (ns : list NodeState).



(** X10.  With the minimum dimensions that the node component measures, the
    floor of 180 on the collapsed width never applies: the collapsed width
    is the expanded minimum width, which is at least 200 and at least the
    diagram plus its padding.  Collapsing an expanded node after
    [updateNodeMinDimensions] with these dimensions gives it that width and
    the height 46. *)
Theorem collapse_after_measuring w nodeId (i : nat) n ceilWidth ceilHeight :
  findNode nodeId (nodes (state w)) = Some (i, n) ->
  isCollapsed n = false ->
  let m := measuredMinDimensions ceilWidth ceilHeight in
  MinDimensions.collapsedWidth m = MinDimensions.width m /\
  200 <= MinDimensions.width m /\
  ceilWidth + 16 <= MinDimensions.width m /\
  120 <= MinDimensions.height m /\
  ceilHeight + 46 <= MinDimensions.height m /\
  exists w1 w2,
    updateNodeMinDimensions nodeId m w = (w1, Return tt) /\
    toggleNodeCollapse nodeId w1
      = (w2, Return {| newSize := {| width := MinDimensions.width m; height := 46 |};
                       toggle_isCollapsed := true |}).
Proof.
  intros Hfind Hexp m.
  destruct (findNode_id _ _ _ _ Hfind) as [Hid Hi].
  assert (Hcw : MinDimensions.collapsedWidth m = MinDimensions.width m).
  { unfold m, measuredMinDimensions. simpl. lia. }
  split_and!; try (unfold m, measuredMinDimensions; simpl; lia).
  unfold updateNodeMinDimensions. run_M. rewrite Hfind.
  eexists _, _. split; [reflexivity|].
  erewrite toggleNodeCollapse_found.
  2:{ simpl. apply findNode_insert with n; [exact Hfind|exact Hid]. }
  do 2 f_equal.
  unfold toggledNode. simpl. rewrite Hexp. simpl.
  unfold m, measuredMinDimensions. simpl.
  rewrite (Z.max_r 180) by lia. reflexivity.
Qed.

Lemma collapse_after_measuring_witness :
  let m := measuredMinDimensions 412 260 in
  findNode "1" (nodes (state world_300_250)) = Some (0%nat, node_300_250) /\
  isCollapsed node_300_250 = false /\
  MinDimensions.collapsedWidth m = MinDimensions.width m /\
  200 <= MinDimensions.width m /\
  412 + 16 <= MinDimensions.width m /\
  120 <= MinDimensions.height m /\
  260 + 46 <= MinDimensions.height m /\
  exists w1 w2,
    updateNodeMinDimensions "1" m world_300_250 = (w1, Return tt) /\
    toggleNodeCollapse "1" w1
      = (w2, Return {| newSize := {| width := MinDimensions.width m; height := 46 |};
                       toggle_isCollapsed := true |}).
Proof.
  intros m. split; [reflexivity|]. split; [reflexivity|].
  apply (collapse_after_measuring world_300_250 "1" 0%nat node_300_250 412 260);
    reflexivity.
Defined.

(** X11.  [initializeFromNodes] followed by [toReactFlowNodes] gives back
    one node per given node, in order, with the id and position it had and
    the type workflowNode; data that was given is kept; a width or height
    that was given and is not 0 is kept, and a missing one or 0 becomes 250
    or 200.  Every node starts expanded with no availability flag, and the
    edges are the given ones. *)
Theorem initializeFromNodes_then_toReactFlowNodes w flowNodes es :
  exists w1 out,
    initializeFromNodes flowNodes es w = (w1, Return tt) /\
    toReactFlowNodes w1 = (w1, Return out) /\
    edges (state w1) = es /\
    length out = length flowNodes /\
    Forall (fun n => isCollapsed n = false /\ isOrphaned n = None /\
                     expandedSize n = None) (nodes (state w1)) /\
    forall (i : nat) node,
      flowNodes !! i = Some node ->
      exists o,
        out !! i = Some o /\
        flow_id o = in_id node /\
        flow_position o = in_position node /\
        flow_type o = "workflowNode" /\
        (forall d, in_data node = Some d -> flow_data o = d) /\
        width (flow_style o) = orNumber (in_style node ≫= style_width) 250 /\
        height (flow_style o) = orNumber (in_style node ≫= style_height) 200 /\
        width (flow_style o) <> 0 /\
        height (flow_style o) <> 0.
Proof.
  unfold initializeFromNodes, toReactFlowNodes. run_M.
  exists (withEdges es (withNodes (nodeStateOfFlowNode <$> flowNodes) w)),
    (toFlowNode <$> (nodeStateOfFlowNode <$> flowNodes)).
  split_and!; try reflexivity.
  - by rewrite !length_fmap.
  - apply Forall_fmap, Forall_true. by intros n.
  - intros i node Hi. eexists. split_and!.
    + by rewrite !list_lookup_fmap, Hi.
    + done.
    + done.
    + done.
    + simpl. by intros d ->.
    + done.
    + done.
    + simpl. unfold orNumber.
      destruct (in_style node ≫= style_width) as [v|]; [|done].
      destruct (v =? 0) eqn:Hv; [done|]. by apply Z.eqb_neq.
    + simpl. unfold orNumber.
      destruct (in_style node ≫= style_height) as [v|]; [|done].
      destruct (v =? 0) eqn:Hv; [done|]. by apply Z.eqb_neq.
Qed.

Example initializeFromNodes_two :
  snd (toReactFlowNodes (fst (initializeFromNodes flowNodes_two [] world_300_250)))
  = Return
      [{| flow_id := "1"; flow_type := "workflowNode";
          flow_position := {| x := 10; y := 20 |};
          flow_style := {| width := 320; height := 200 |};
          flow_data := {| label := "A"; markdownPath := "/workflows/a.md" |} |};
       {| flow_id := "2"; flow_type := "workflowNode";
          flow_position := {| x := 30; y := 40 |};
          flow_style := {| width := 250; height := 200 |};
          flow_data := {| label := "Node 2";
                          markdownPath := "/workflows/node-2.md" |} |}].
Proof. reflexivity. Qed.

End Sizes.

(** ** More on reconciliation *)

Section ReconcileMore.

Implicit Types (w : World) (n : NodeState) (ns : list NodeState) (files : list string).

Lemma reconcileNodes_existing ns files (i : nat) n :
  ns !! i = Some n ->
  reconcileNodes ns files !! i
    = Some (markOrphaned (existingFilesOf files) n).
Proof.
  intros Hi. rewrite reconcileNodes_app.
  rewrite lookup_app_l by (rewrite length_markedNodes; by eapply lookup_lt_Some).
  unfold markedNodes. by rewrite list_lookup_fmap, Hi.
Qed.

(** X12.  Reconciliation never drops or reorders a node and never touches
    an edge: every node it starts from is found at the same index
    afterwards and differs at most in its availability flag, and the edges
    are the ones it started from.  [reEnumerateMarkdownFiles] starts from
    the state in memory, [initializeWorkflowState] from the loaded
    configuration. *)
Theorem reconciliation_keeps_existing_nodes w :
  (forall (i : nat) n,
     nodes (state w) !! i = Some n ->
     exists o,
       nodes (state (fst (reEnumerateMarkdownFiles w))) !! i
         = Some (set_isOrphaned o n)) /\
  edges (state (fst (reEnumerateMarkdownFiles w))) = edges (state w) /\
  (saveResponse (backend w) = SaveOk ->
   exists w' flow,
     initializeWorkflowState w = (w', Return (flow, configEdges (backend w))) /\
     edges (state w') = configEdges (backend w) /\
     forall (i : nat) n,
       configNodes (backend w) !! i = Some n ->
       exists o, nodes (state w') !! i = Some (set_isOrphaned o n)).
Proof.
  split_and!.
  - intros i n Hi. rewrite nodes_reEnumerated. eexists.
    by apply reconcileNodes_existing.
  - apply edges_reEnumerated.
  - intros Hok. eexists _, _. split_and!.
    + apply initializeWorkflowState_returns. by left.
    + apply edges_initializedWorld.
    + intros i n Hi. rewrite nodes_initializedWorld. eexists.
      by apply reconcileNodes_existing.
Qed.

Lemma reconciliation_keeps_existing_nodes_witness :
  saveResponse (backend world_mixed_ids) = SaveOk /\
  exists w' flow,
    initializeWorkflowState world_mixed_ids
      = (w', Return (flow, configEdges (backend world_mixed_ids))) /\
    edges (state w') = configEdges (backend world_mixed_ids) /\
    forall (i : nat) n,
      configNodes (backend world_mixed_ids) !! i = Some n ->
      exists o, nodes (state w') !! i = Some (set_isOrphaned o n).
Proof.
  split; [reflexivity|].
  apply (reconciliation_keeps_existing_nodes world_mixed_ids). reflexivity.
Defined.

(** X13.  When the write is accepted, [reEnumerateMarkdownFiles] returns the
    nodes and edges that it leaves in memory, [newNodes] is the number of
    nodes by which the graph has grown, and [recoveredNodes] is the number
    of nodes that were flagged orphaned and whose document is listed
    again. *)
Theorem reEnumerate_reports_counts w :
  saveResponse (backend w) = SaveOk ->
  exists w' r,
    reEnumerateMarkdownFiles w = (w', Return r) /\
    result_nodes r = toFlowNode <$> nodes (state w') /\
    result_edges r = edges (state w') /\
    newNodes r = Z.of_nat (length (nodes (state w')))
                 - Z.of_nat (length (nodes (state w))) /\
    recoveredNodes r =
      Z.of_nat (length (filter
        (fun n => isOrphaned n = Some true /\
                  markdownPath (data n) ∈ workflowPath <$> listedFiles (backend w))
        (nodes (state w)))).
Proof.
  intros Hok. rewrite reEnumerateMarkdownFiles_run, Hok. simpl.
  eexists _, _. split; [reflexivity|]. simpl. split_and!; try done.
  - rewrite reconcileNodes_app, length_app, length_markedNodes, length_imap. lia.
  - do 2 f_equal. apply list_filter_iff. intros n.
    unfold markOrphaned. simpl.
    rewrite existingFilesOf_elem.
    destruct (isOrphaned n) as [[]|]; simpl;
      destruct (bool_decide_reflect
                  (markdownPath (data n) ∈ workflowPath <$> listedFiles (backend w)));
      simpl; split; intros [? ?]; split; try done.
Qed.

Lemma reEnumerate_reports_counts_witness :
  saveResponse (backend world_mixed_ids) = SaveOk /\
  exists w' r,
    reEnumerateMarkdownFiles world_mixed_ids = (w', Return r) /\
    result_nodes r = toFlowNode <$> nodes (state w') /\
    result_edges r = edges (state w') /\
    newNodes r = Z.of_nat (length (nodes (state w')))
                 - Z.of_nat (length (nodes (state world_mixed_ids))) /\
    recoveredNodes r =
      Z.of_nat (length (filter
        (fun n => isOrphaned n = Some true /\
                  markdownPath (data n)
                    ∈ workflowPath <$> listedFiles (backend world_mixed_ids))
        (nodes (state world_mixed_ids)))).
Proof.
  split; [reflexivity|].
  apply (reEnumerate_reports_counts world_mixed_ids). reflexivity.
Defined.

Example reEnumerate_counts_mixed :
  (fun r => (newNodes r, recoveredNodes r))
    <$> match snd (reEnumerateMarkdownFiles world_mixed_ids) with
        | Return r => Some r
        | Throw _ => None
        end
  = Some (2, 1).
Proof. reflexivity. Qed.

(** X14.  What reaches the configuration file.  An accepted write of
    [reEnumerateMarkdownFiles] leaves the file equal to the state in memory.
    [initializeWorkflowState] writes only when it has created nodes: with no
    new file the configuration file is left as it was, whatever flags have
    changed in memory; with new files and an accepted write the file has the
    nodes and edges of the state in memory. *)
Theorem reconciliation_writes w :
  (saveResponse (backend w) = SaveOk ->
   configFile (backend (fst (reEnumerateMarkdownFiles w)))
     = Some (state (fst (reEnumerateMarkdownFiles w)))) /\
  (novelFiles (configNodes (backend w)) (listedFiles (backend w)) = [] ->
   configFile (backend (fst (initializeWorkflowState w))) = configFile (backend w)) /\
  (saveResponse (backend w) = SaveOk ->
   novelFiles (configNodes (backend w)) (listedFiles (backend w)) <> [] ->
   exists config,
     configFile (backend (fst (initializeWorkflowState w))) = Some config /\
     nodes config = nodes (state (fst (initializeWorkflowState w))) /\
     edges config = edges (state (fst (initializeWorkflowState w)))).
Proof.
  split_and!.
  - intros Hok. by rewrite reEnumerateMarkdownFiles_run, Hok.
  - intros Hnone. rewrite initializeWorkflowState_body, Hnone. simpl.
    unfold initializedWorld. by rewrite Hnone.
  - intros Hok Hnew. rewrite initializeWorkflowState_body, Hok.
    destruct (novelFiles _ _) eqn:Hn; [done|]. simpl.
    unfold initializedWorld. rewrite Hn. simpl. by eexists.
Qed.

Lemma reconciliation_writes_witness :
  saveResponse (backend world_mixed_ids) = SaveOk /\
  novelFiles (configNodes (backend world_mixed_ids))
             (listedFiles (backend world_mixed_ids)) <> [] /\
  configFile (backend (fst (reEnumerateMarkdownFiles world_mixed_ids)))
    = Some (state (fst (reEnumerateMarkdownFiles world_mixed_ids))) /\
  exists config,
    configFile (backend (fst (initializeWorkflowState world_mixed_ids))) = Some config /\
    nodes config = nodes (state (fst (initializeWorkflowState world_mixed_ids))) /\
    edges config = edges (state (fst (initializeWorkflowState world_mixed_ids))).
Proof.
  assert (Hnew : novelFiles (configNodes (backend world_mixed_ids))
                            (listedFiles (backend world_mixed_ids)) <> [])
    by (vm_compute; discriminate).
  split_and!; [reflexivity|exact Hnew|..].
  - apply (reconciliation_writes world_mixed_ids). reflexivity.
  - apply (reconciliation_writes world_mixed_ids); [reflexivity|exact Hnew].
Defined.

(** X15.  Reloading after a re-scan is a round trip: when the write of
    [reEnumerateMarkdownFiles] is accepted and the configuration can be
    fetched, a following [initializeWorkflowState] (a reload of the page
    with the same files) returns, gives the nodes and edges that were in
    memory, and does not write again. *)
Theorem reEnumerate_then_reload w :
  saveResponse (backend w) = SaveOk ->
  configReadable (backend w) = true ->
  let w1 := fst (reEnumerateMarkdownFiles w) in
  exists w2,
    initializeWorkflowState w1
      = (w2, Return (toFlowNode <$> nodes (state w1), edges (state w1))) /\
    nodes (state w2) = nodes (state w1) /\
    edges (state w2) = edges (state w1) /\
    configFile (backend w2) = configFile (backend w1).
Proof.
  intros Hok Hread w1.
  assert (Hw1 : w1 = {| state := reEnumeratedState w;
                        backend := withConfigFile (reEnumeratedState w)
                                     (tick (backend w)) |}).
  { unfold w1. by rewrite reEnumerateMarkdownFiles_run, Hok. }
  assert (Hcfg : loadedConfig (backend w1) = Some (reEnumeratedState w)).
  { rewrite Hw1. unfold loadedConfig. simpl. by rewrite Hread. }
  assert (Hns : configNodes (backend w1) = nodes (state w1)).
  { unfold configNodes. rewrite Hcfg. by rewrite Hw1. }
  assert (Hes : configEdges (backend w1) = edges (state w1)).
  { unfold configEdges. rewrite Hcfg. by rewrite Hw1. }
  assert (Hfiles : listedFiles (backend w1) = listedFiles (backend w)).
  { by rewrite Hw1. }
  assert (Hnodes : nodes (state w1)
                   = reconcileNodes (nodes (state w)) (listedFiles (backend w))).
  { by rewrite Hw1. }
  assert (Hnovel : novelFiles (configNodes (backend w1)) (listedFiles (backend w1)) = []).
  { rewrite Hns, Hfiles, Hnodes. apply novelFiles_reconcileNodes. }
  assert (Hrec : reconcileNodes (configNodes (backend w1)) (listedFiles (backend w1))
                 = nodes (state w1)).
  { rewrite Hns, Hfiles, Hnodes. apply reconcileNodes_idempotent. }
  exists (initializedWorld w1). split_and!.
  - rewrite initializeWorkflowState_returns by (by right).
    by rewrite Hrec, Hes.
  - by rewrite nodes_initializedWorld.
  - by rewrite edges_initializedWorld.
  - unfold initializedWorld. by rewrite Hnovel.
Qed.

Lemma reEnumerate_then_reload_witness :
  saveResponse (backend world_mixed_ids) = SaveOk /\
  configReadable (backend world_mixed_ids) = true /\
  let w1 := fst (reEnumerateMarkdownFiles world_mixed_ids) in
  exists w2,
    initializeWorkflowState w1
      = (w2, Return (toFlowNode <$> nodes (state w1), edges (state w1))) /\
    nodes (state w2) = nodes (state w1) /\
    edges (state w2) = edges (state w1) /\
    configFile (backend w2) = configFile (backend w1).
Proof.
  split_and!; [reflexivity..|].
  apply (reEnumerate_then_reload world_mixed_ids); reflexivity.
Defined.

End ReconcileMore.

(** ** Documents and positions of the nodes *)

Section Documents.

Implicit Types (w : World) (n : NodeState) (ns : list NodeState) (files : list string).

Lemma workflowPath_inj (a b : string) : workflowPath a = workflowPath b -> a = b.
Proof.
  unfold workflowPath. intros H.
  by apply (inj (String.app "/workflows/")) in H.
Qed.

Lemma paths_reconcileNodes ns files :
  (fun n => markdownPath (data n)) <$> reconcileNodes ns files
  = ((fun n => markdownPath (data n)) <$> ns) ++ (workflowPath <$> novelFiles ns files).
Proof.
  rewrite reconcileNodes_app, fmap_app. f_equal.
  - unfold markedNodes. rewrite <- list_fmap_compose. by apply list_fmap_ext.
  - generalize (nextNodeIdOf ns) (length ns). intros next count.
    apply list_eq. intros k.
    rewrite !list_lookup_fmap, list_lookup_imap.
    by destruct (novelFiles ns files !! k).
Qed.

Lemma reconcileNodes_NoDup_paths ns files :
  NoDup files ->
  NoDup ((fun n => markdownPath (data n)) <$> ns) ->
  NoDup ((fun n => markdownPath (data n)) <$> reconcileNodes ns files).
Proof.
  intros Hfiles Hns. rewrite paths_reconcileNodes. apply NoDup_app. split_and!.
  - done.
  - intros p Hp Hp'.
    apply list_elem_of_fmap in Hp' as (file & -> & Hfile).
    unfold novelFiles, newFilesOf in Hfile.
    apply list_elem_of_filter in Hfile as [Hnot _].
    apply Hnot. rewrite paths_markedNodes. unfold existingPathsOf.
    by rewrite elem_of_list_to_set.
  - apply NoDup_fmap_2; [intros a b; apply workflowPath_inj|].
    unfold novelFiles, newFilesOf. by apply NoDup_filter.
Qed.

(** X16.  After a run with the listing [D], every listed file is the
    document of a node.  When no name is listed twice and no two nodes
    shared a document before, no two nodes share a document afterwards: a
    file that a node refers to already never gets a second node. *)
Theorem every_listed_file_has_one_node w D :
  enumerateResponse (backend w) = Some D ->
  let after := nodes (state (fst (reEnumerateMarkdownFiles w))) in
  (forall file, file ∈ D ->
     exists n, n ∈ after /\ markdownPath (data n) = workflowPath file) /\
  (NoDup D ->
   NoDup ((fun n => markdownPath (data n)) <$> nodes (state w)) ->
   NoDup ((fun n => markdownPath (data n)) <$> after)).
Proof.
  intros HD after.
  assert (Hfiles : listedFiles (backend w) = D) by (unfold listedFiles; by rewrite HD).
  unfold after. rewrite nodes_reEnumerated, Hfiles. split.
  - intros file Hfile.
    pose proof (reconcileNodes_covers (nodes (state w)) D file Hfile) as Hc.
    unfold existingPathsOf in Hc. rewrite elem_of_list_to_set in Hc.
    apply list_elem_of_fmap in Hc as (n & Hp & Hn). by exists n.
  - apply reconcileNodes_NoDup_paths.
Qed.

Lemma every_listed_file_has_one_node_witness :
  let w := world_mixed_ids in
  let D := ["b.md"; "c.md"; "a.md"; "d.md"] in
  let after := nodes (state (fst (reEnumerateMarkdownFiles w))) in
  enumerateResponse (backend w) = Some D /\
  NoDup D /\
  NoDup ((fun n => markdownPath (data n)) <$> nodes (state w)) /\
  (forall file, file ∈ D ->
     exists n, n ∈ after /\ markdownPath (data n) = workflowPath file) /\
  NoDup ((fun n => markdownPath (data n)) <$> after).
Proof.
  intros w D after.
  assert (HD : NoDup D) by (apply (bool_decide_unpack _); vm_compute; exact I).
  assert (Hp : NoDup ((fun n => markdownPath (data n)) <$> nodes (state w)))
    by (apply (bool_decide_unpack _); vm_compute; exact I).
  split_and!; [reflexivity|exact HD|exact Hp|..].
  - apply (every_listed_file_has_one_node w D). reflexivity.
  - apply (every_listed_file_has_one_node w D); [reflexivity|exact HD|exact Hp].
Defined.

(** The grid position determines the index, for indices from 0 on. *)
Lemma calculateGridPosition_inj (i j : Z) :
  0 <= i -> 0 <= j ->
  calculateGridPosition i 250 200 = calculateGridPosition j 250 200 -> i = j.
Proof.
  intros Hi Hj. unfold calculateGridPosition.
  rewrite !Z.rem_mod_nonneg by lia. intros [= Hx Hy].
  pose proof (Z.div_mod i 3). pose proof (Z.div_mod j 3).
  pose proof (Z.mod_pos_bound i 3). pose proof (Z.mod_pos_bound j 3).
  lia.
Qed.

(** X17.  Two nodes created in the same run never get the same position on
    the canvas. *)
Theorem new_nodes_have_distinct_positions w (k k' : nat) n n' :
  let before := nodes (state w) in
  let after := nodes (state (fst (reEnumerateMarkdownFiles w))) in
  (length before <= k)%nat -> (length before <= k')%nat -> k <> k' ->
  after !! k = Some n -> after !! k' = Some n' ->
  position n <> position n'.
Proof.
  intros before after Hk Hk' Hne. unfold after.
  rewrite nodes_reEnumerated, reconcileNodes_app.
  rewrite !lookup_app_r by (rewrite length_markedNodes; done).
  rewrite !list_lookup_imap, length_markedNodes. fold before.
  destruct (novelFiles _ _ !! (k - length before)%nat); [|done].
  destruct (novelFiles _ _ !! (k' - length before)%nat); [|done].
  simpl. intros [= <-] [= <-] Heq. unfold addedNode, newNodeFor in Heq. simpl in Heq.
  apply calculateGridPosition_inj in Heq; lia.
Qed.

Lemma new_nodes_have_distinct_positions_witness :
  let w := world_mixed_ids in
  let after := nodes (state (fst (reEnumerateMarkdownFiles w))) in
  exists n n',
    (length (nodes (state w)) <= 3)%nat /\ (length (nodes (state w)) <= 4)%nat /\
    3%nat <> 4%nat /\
    after !! 3%nat = Some n /\ after !! 4%nat = Some n' /\
    position n <> position n'.
Proof.
  intros w after.
  destruct (after !! 3%nat) as [n|] eqn:Hn; [|vm_compute in Hn; discriminate].
  destruct (after !! 4%nat) as [n'|] eqn:Hn'; [|vm_compute in Hn'; discriminate].
  assert (H3 : (length (nodes (state w)) <= 3)%nat) by (simpl; lia).
  assert (H4 : (length (nodes (state w)) <= 4)%nat) by (simpl; lia).
  assert (Hne : 3%nat <> 4%nat) by lia.
  exists n, n'. split_and!; try done.
  exact (new_nodes_have_distinct_positions w 3%nat 4%nat n n' H3 H4 Hne Hn Hn').
Defined.

(** X18.  [markOrphanedNodes] is the availability pass alone: it returns,
    sends no write, keeps the edges, and leaves exactly the nodes that
    [reEnumerateMarkdownFiles] would leave in place of the existing ones,
    each flagged by the listing; a second call changes nothing. *)
Theorem markOrphanedNodes_is_availability_pass w :
  exists w',
    markOrphanedNodes w = (w', Return tt) /\
    backend w' = backend w /\
    edges (state w') = edges (state w) /\
    Forall (availabilityMatches (listedFiles (backend w))) (nodes (state w')) /\
    nodes (state w')
      = take (length (nodes (state w)))
             (nodes (state (fst (reEnumerateMarkdownFiles w)))) /\
    markOrphanedNodes w' = (w', Return tt).
Proof.
  unfold markOrphanedNodes.
  exists (withNodes (markedNodes (nodes (state w)) (listedFiles (backend w))) w).
  split_and!.
  - unfold mbind at 1, M_bind at 1, bind at 1. rewrite enumerateMarkdownFiles_run.
    by run_M.
  - done.
  - done.
  - simpl. unfold markedNodes. apply Forall_fmap, Forall_true. intros n.
    apply markOrphaned_matches.
  - rewrite nodes_reEnumerated, reconcileNodes_app. simpl.
    rewrite take_app_length'; [done|by rewrite length_markedNodes].
  - unfold mbind at 1, M_bind at 1, bind at 1. rewrite enumerateMarkdownFiles_run.
    run_M. simpl.
    change (markOrphaned (existingFilesOf (listedFiles (backend w))) <$>
            markedNodes (nodes (state w)) (listedFiles (backend w)))
      with (markedNodes (markedNodes (nodes (state w)) (listedFiles (backend w)))
                        (listedFiles (backend w))).
    rewrite markedNodes_fixed; [done|].
    unfold markedNodes. apply Forall_fmap, Forall_true. intros n.
    apply markOrphaned_matches.
Qed.

End Documents.

(** ** Labels *)

Section Labels.

Implicit Types (s stem : string) (c : ascii).

Lemma length_append s1 s2 :
  String.length (s1 +:+ s2) = (String.length s1 + String.length s2)%nat.
Proof. induction s1 as [|c s1 IH]; simpl; [done|]. by rewrite IH. Qed.

Lemma stripMdSuffix_md stem : stripMdSuffix (stem +:+ ".md") = stem.
Proof.
  induction stem as [|c stem IH]; [done|].
  change (String c stem +:+ ".md") with (String c (stem +:+ ".md")).
  cbn [stripMdSuffix].
  destruct (String.eqb (String c (stem +:+ ".md")) ".md") eqn:He.
  - apply String.eqb_eq in He. apply (f_equal String.length) in He.
    simpl in He. rewrite length_append in He. simpl in He. lia.
  - by rewrite IH.
Qed.

Lemma split_nonempty (sep : ascii) s : split sep s <> [].
Proof.
  destruct s as [|c s]; simpl; [done|].
  destruct (Ascii.eqb c sep); [done|]. by destruct (split sep s).
Qed.

Lemma join_cons_cons (sep a b : string) (l : list string) :
  join sep (a :: b :: l) = a +:+ sep +:+ join sep (b :: l).
Proof. reflexivity. Qed.

Lemma join_cons_char (c : ascii) (w : string) (ws : list string) :
  join " " (String c w :: ws) = String c (join " " (w :: ws)).
Proof. by destruct ws. Qed.

(** The words of a split never contain the separator, so the label can be
    read character by character. *)
Lemma join_split_labelChars s (start : bool) :
  match split "-" s with
  | w :: ws => join " " ((if start then capitalize w else w) :: (capitalize <$> ws))
  | [] => EmptyString
  end = labelChars start s.
Proof.
  revert start. induction s as [|c s IH]; intros start.
  - simpl. by destruct start.
  - cbn [split labelChars]. destruct (Ascii.eqb c "-") eqn:Hc.
    + specialize (IH true). pose proof (split_nonempty "-" s) as Hne.
      destruct (split "-" s) as [|w ws]; [done|].
      assert (Hcap : (if start then capitalize "" else "") = EmptyString)
        by (by destruct start).
      rewrite Hcap, fmap_cons, join_cons_cons. by rewrite IH.
    + specialize (IH false). pose proof (split_nonempty "-" s) as Hne.
      destruct (split "-" s) as [|w ws]; [done|].
      assert (Hcap : (if start then capitalize (String c w) else String c w)
                     = String (if start then toUpperCase c else c) w)
        by (by destruct start).
      rewrite Hcap, join_cons_char. by rewrite IH.
Qed.

Lemma generateLabel_labelChars filename :
  generateLabelFromFilename filename = labelChars true (stripMdSuffix filename).
Proof.
  unfold generateLabelFromFilename.
  rewrite <- join_split_labelChars.
  pose proof (split_nonempty "-" (stripMdSuffix filename)) as Hne.
  by destruct (split "-" (stripMdSuffix filename)).
Qed.

Lemma length_labelChars (start : bool) s :
  String.length (labelChars start s) = String.length s.
Proof.
  revert start. induction s as [|c s IH]; intros start; simpl; [done|].
  destruct (Ascii.eqb c "-"); simpl; by rewrite IH.
Qed.

Lemma toUpperCase_hyphen c : toUpperCase c = "-"%char -> c = "-"%char.
Proof.
  destruct c as [[] [] [] [] [] [] [] []]; vm_compute; congruence.
Qed.

Lemma labelChars_no_hyphen (start : bool) s :
  "-"%char ∉ String.list_ascii_of_string (labelChars start s).
Proof.
  revert start. induction s as [|c s IH]; intros start; simpl.
  - apply not_elem_of_nil.
  - destruct (Ascii.eqb c "-") eqn:Hc; simpl.
    + apply not_elem_of_cons. split; [done|apply IH].
    + apply Ascii.eqb_neq in Hc. apply not_elem_of_cons. split; [|apply IH].
      destruct start; [|congruence].
      intros H. symmetry in H. by apply toUpperCase_hyphen in H.
Qed.

Lemma labelChars_plain s :
  ("-"%char ∉ String.list_ascii_of_string s) ->
  labelChars true s = capitalize s /\ labelChars false s = s.
Proof.
  induction s as [|c s IH]; simpl; [done|].
  intros [Hc Hs]%not_elem_of_cons.
  destruct (Ascii.eqb c "-") eqn:He; [apply Ascii.eqb_eq in He; congruence|].
  destruct (IH Hs) as [_ ->]. done.
Qed.

(** X19.  The label of the file [stem ++ ".md"], for a stem of ASCII
    characters (on which the model of [toUpperCase] is exact), is made from
    the stem alone: it has as many characters as the stem and no hyphen, and
    when the stem has no hyphen it is the stem with its first character in
    upper case. *)
Theorem label_of_markdown_file stem :
  Forall (fun c => (nat_of_ascii c < 128)%nat) (String.list_ascii_of_string stem) ->
  let label' := generateLabelFromFilename (stem +:+ ".md") in
  String.length label' = String.length stem /\
  ("-"%char ∉ String.list_ascii_of_string label') /\
  (("-"%char ∉ String.list_ascii_of_string stem) -> label' = capitalize stem).
Proof.
  intros _ label'. unfold label'.
  rewrite generateLabel_labelChars, stripMdSuffix_md. split_and!.
  - apply length_labelChars.
  - apply labelChars_no_hyphen.
  - intros H. by apply labelChars_plain.
Qed.

Lemma label_of_markdown_file_witness :
  Forall (fun c => (nat_of_ascii c < 128)%nat) (String.list_ascii_of_string "overview") /\
  ("-"%char ∉ String.list_ascii_of_string "overview") /\
  String.length (generateLabelFromFilename ("overview" +:+ ".md"))
    = String.length "overview" /\
  generateLabelFromFilename ("overview" +:+ ".md") = capitalize "overview".
Proof.
  assert (Ha : Forall (fun c => (nat_of_ascii c < 128)%nat)
                      (String.list_ascii_of_string "overview")).
  { apply (bool_decide_unpack _). vm_compute. exact I. }
  assert (H : "-"%char ∉ String.list_ascii_of_string "overview").
  { apply (bool_decide_unpack _). vm_compute. exact I. }
  split_and!; [exact Ha|exact H|..].
  - apply (label_of_markdown_file "overview" Ha).
  - apply (label_of_markdown_file "overview" Ha). exact H.
Defined.

End Labels.

(** ** The logger *)

Section Logger.

Implicit Types (k : LogSink) (level : LogLevel).

(** X20.  Log levels.  An error is logged whatever the active level is, and
    a level that is logged lets every level after it in the order debug,
    info, warn, error through.  With the active level that the class sets
    (warn), [debug], [info] and [logUserAction] write nothing at all, while
    [warn] and [error] write one console line and post one entry; when the
    log server cannot be reached the entry is dropped and a second console
    line reports it. *)
Theorem logger_levels logLevel level level' msg stack action target' k :
  shouldLog logLevel level_error = true /\
  (shouldLog logLevel level = true ->
   levelIndex level <= levelIndex level' ->
   shouldLog logLevel level' = true) /\
  logAt activeLogLevel level_debug msg stack k = k /\
  logAt activeLogLevel level_info msg stack k = k /\
  logUserAction activeLogLevel action target' k = k /\
  (level = level_warn \/ level = level_error ->
   let k' := logAt activeLogLevel level msg stack k in
   (serverReachable k = true ->
    consoleLines k' = consoleLines k ++ [(level, msg)] /\
    exists entry,
      postedEntries k' = postedEntries k ++ [entry] /\
      entry_level entry = level /\ entry_message entry = msg) /\
   (serverReachable k = false ->
    consoleLines k'
      = consoleLines k ++ [(level, msg); (level_error, "Failed to send log to server:")] /\
    postedEntries k' = postedEntries k)).
Proof.
  split_and!.
  - by destruct logLevel.
  - unfold shouldLog. intros H1%Z.leb_le H2. apply Z.leb_le. lia.
  - done.
  - done.
  - done.
  - intros [-> | ->] k'; unfold k', logAt, sendLog; simpl; split; intros ->;
      simpl; rewrite <- ?app_assoc; split; try done; by eexists.
Qed.

Lemma logger_levels_witness :
  shouldLog level_info level_info = true /\
  levelIndex level_info <= levelIndex level_warn /\
  shouldLog level_info level_warn = true /\
  serverReachable sink_empty = true /\
  consoleLines (logAt activeLogLevel level_warn "low disk" None sink_empty)
    = consoleLines sink_empty ++ [(level_warn, "low disk")].
Proof.
  pose proof (logger_levels level_info level_info level_warn "low disk" None
                "click" None sink_empty) as (_ & Hmono & _ & _ & _ & _).
  pose proof (logger_levels level_info level_warn level_warn "low disk" None
                "click" None sink_empty) as (_ & _ & _ & _ & _ & Hwarn).
  assert (H1 : shouldLog level_info level_info = true) by reflexivity.
  assert (H2 : levelIndex level_info <= levelIndex level_warn)
    by (vm_compute; discriminate).
  split_and!; [exact H1|exact H2|exact (Hmono H1 H2)|reflexivity|].
  destruct (Hwarn (or_introl eq_refl)) as [Hup _].
  exact (proj1 (Hup eq_refl)).
Defined.

End Logger.

(** ** The state file *)

Section StateFile.

Implicit Types (w : World) (d : Disk).

(** X21.  Saving the state and loading it is a round trip.  When the
    service accepts the write and answers reads, [saveStateToDisk] returns
    and [loadStateFromDisk] then returns the state that is in memory, which
    is the state at the call with [lastSaved] set; loaded into another state
    manager (a fresh page), it puts the same nodes and edges there. *)
Theorem save_then_load_state w d w0 :
  stateSaveResponse d = SaveOk ->
  stateLoadFailure d = None ->
  exists w1 d1,
    saveStateToDisk d w = ((w1, d1), Return tt) /\
    nodes (state w1) = nodes (state w) /\
    edges (state w1) = edges (state w) /\
    lastSaved (state w1) = timestamps (backend w) (dateCalls (backend w)) /\
    loadStateFromDisk d1 w1 = (w1, Some (state w1)) /\
    exists w2,
      loadStateFromDisk d1 w0 = (w2, Some (state w1)) /\
      state w2 = state w1 /\
      backend w2 = backend w0.
Proof.
  intros Hsave Hload. unfold saveStateToDisk, loadStateFromDisk. rewrite Hsave.
  eexists _, _. split; [reflexivity|]. simpl. rewrite Hload.
  split_and!; try done. by eexists.
Qed.

Lemma save_then_load_state_witness :
  stateSaveResponse disk_empty = SaveOk /\
  stateLoadFailure disk_empty = None /\
  exists w1 d1,
    saveStateToDisk disk_empty world_mixed_ids = ((w1, d1), Return tt) /\
    nodes (state w1) = nodes (state world_mixed_ids) /\
    edges (state w1) = edges (state world_mixed_ids) /\
    lastSaved (state w1)
      = timestamps (backend world_mixed_ids) (dateCalls (backend world_mixed_ids)) /\
    loadStateFromDisk d1 w1 = (w1, Some (state w1)) /\
    exists w2,
      loadStateFromDisk d1 world_300_250 = (w2, Some (state w1)) /\
      state w2 = state w1 /\
      backend w2 = backend world_300_250.
Proof.
  split_and!; [reflexivity..|].
  apply (save_then_load_state world_mixed_ids disk_empty world_300_250); reflexivity.
Defined.

(** X22.  Failures of the state file.  A failed write makes
    [saveStateToDisk] throw, and [lastSaved] has been set in memory all the
    same, the nodes and edges being kept; the failure does not tell whether
    the file was written.  [loadStateFromDisk] never throws: when the file
    is absent or the request fails it returns null and leaves the state in
    memory untouched. *)
Theorem state_file_failures w d :
  (stateSaveResponse d <> SaveOk ->
   exists w1 d1 e,
     saveStateToDisk d w = ((w1, d1), Throw e) /\
     lastSaved (state w1) = timestamps (backend w) (dateCalls (backend w)) /\
     nodes (state w1) = nodes (state w) /\
     edges (state w1) = edges (state w)) /\
  (stateFile d = None \/ is_Some (stateLoadFailure d) ->
   loadStateFromDisk d w = (w, None)).
Proof.
  split.
  - intros He. unfold saveStateToDisk.
    destruct (stateSaveResponse d); [done|..]; by eexists _, _, _.
  - unfold loadStateFromDisk. intros [H|[e' H]]; rewrite H.
    + by destruct (stateLoadFailure d).
    + done.
Qed.

Lemma state_file_failures_witness :
  stateSaveResponse disk_refusing <> SaveOk /\
  stateFile disk_refusing = None /\
  (exists w1 d1 e,
     saveStateToDisk disk_refusing world_mixed_ids = ((w1, d1), Throw e) /\
     lastSaved (state w1)
       = timestamps (backend world_mixed_ids) (dateCalls (backend world_mixed_ids)) /\
     nodes (state w1) = nodes (state world_mixed_ids) /\
     edges (state w1) = edges (state world_mixed_ids)) /\
  loadStateFromDisk disk_refusing world_mixed_ids = (world_mixed_ids, None).
Proof.
  assert (H : stateSaveResponse disk_refusing <> SaveOk) by (vm_compute; discriminate).
  split_and!; [exact H|reflexivity| |].
  - apply (state_file_failures world_mixed_ids disk_refusing). exact H.
  - apply (state_file_failures world_mixed_ids disk_refusing). by left.
Defined.

(** A write that is answered 500 after the file has been written: the call
    throws and the state file holds the state all the same. *)
Example state_file_written_before_failure :
  let '(w1, d1, r) := saveStateToDisk disk_refusing world_mixed_ids in
  r = Throw {| message := "Failed to save state: Internal Server Error" |} /\
  stateFile disk_refusing = None /\
  stateFile d1 = Some (state w1).
Proof. by split_and!. Qed.

End StateFile.

(** ** The handlers of the application *)

Section Handlers.

Implicit Types (w : World) (app : AppState) (n : NodeState).

Lemma fmap_filter_key {A} (key : A -> string) (k : string) (l : list A) :
  key <$> filter (fun a => key a <> k) l = filter (fun s => s <> k) (key <$> l).
Proof.
  induction l as [|a l IH]; [done|]. rewrite fmap_cons.
  destruct (decide (key a = k)) as [He|He].
  - rewrite !filter_cons_False by (intros H; by apply H). exact IH.
  - rewrite !filter_cons_True by done. rewrite fmap_cons. by f_equal.
Qed.

Lemma removeNode_run w nodeId :
  NoDup (id <$> nodes (state w)) ->
  removeNode nodeId w
    = (withNodes (filter (fun n => id n <> nodeId) (nodes (state w))) w, Return tt).
Proof.
  intros Hnd. unfold removeNode. run_M.
  destruct (findNode nodeId (nodes (state w))) as [[i n]|] eqn:Hfind.
  - by rewrite (delete_found_filter id nodeId _ i n Hfind Hnd).
  - by rewrite (absent_filter id nodeId _ Hfind), withNodes_same.
Qed.

(** X23.  Deleting a node from the canvas: afterwards no canvas node has the
    id, no edge of the canvas starts or ends at it, the state manager has
    exactly the edges of the canvas, and the orphan counter is the number of
    orphaned nodes in the state manager.  When canvas and state manager held
    the same pairwise distinct ids before, they hold the same ids
    afterwards and the id is gone from both. *)
Theorem handleNodeDelete_leaves_no_trace nodeId app w :
  let app' := fst (handleNodeDelete nodeId app w) in
  let w' := snd (handleNodeDelete nodeId app w) in
  Forall (fun node => flow_id node <> nodeId) (app_nodes app') /\
  Forall (fun edge => source edge <> nodeId /\ target edge <> nodeId) (app_edges app') /\
  edges (state w') = app_edges app' /\
  orphanedCount app' = countOrphaned w' /\
  (NoDup (id <$> nodes (state w)) ->
   flow_id <$> app_nodes app = id <$> nodes (state w) ->
   flow_id <$> app_nodes app' = id <$> nodes (state w') /\
   findNode nodeId (nodes (state w')) = None).
Proof.
  intros app' w'. unfold app', w', handleNodeDelete. simpl. split_and!.
  - apply Forall_forall. intros node Hn. by apply list_elem_of_filter in Hn as [? _].
  - apply Forall_forall. intros edge He. by apply list_elem_of_filter in He as [? _].
  - done.
  - done.
  - intros Hnd Hsync. rewrite (removeNode_run _ _ Hnd). simpl. split.
    + by rewrite (fmap_filter_key flow_id), (fmap_filter_key id), Hsync.
    + apply (find_after_filter id nodeId).
Qed.

Lemma handleNodeDelete_leaves_no_trace_witness :
  let app' := fst (handleNodeDelete "7" app_mixed_ids world_mixed_ids) in
  let w' := snd (handleNodeDelete "7" app_mixed_ids world_mixed_ids) in
  NoDup (id <$> nodes (state world_mixed_ids)) /\
  flow_id <$> app_nodes app_mixed_ids = id <$> nodes (state world_mixed_ids) /\
  flow_id <$> app_nodes app' = id <$> nodes (state w') /\
  findNode "7" (nodes (state w')) = None.
Proof.
  intros app' w'.
  assert (Hnd : NoDup (id <$> nodes (state world_mixed_ids))).
  { apply (bool_decide_unpack _). vm_compute. exact I. }
  assert (Hsync : flow_id <$> app_nodes app_mixed_ids = id <$> nodes (state world_mixed_ids))
    by reflexivity.
  split; [exact Hnd|]. split; [exact Hsync|].
  apply (handleNodeDelete_leaves_no_trace "7" app_mixed_ids world_mixed_ids);
    [exact Hnd|exact Hsync].
Defined.

Example handleNodeDelete_mixed :
  let r := handleNodeDelete "7" app_mixed_ids world_mixed_ids in
  flow_id <$> app_nodes (fst r) = ["3"; "draft"] /\
  app_edges (fst r) = [] /\ edges (state (snd r)) = [] /\
  orphanedCount (fst r) = 0.
Proof. repeat split; reflexivity. Qed.

Lemma removeOrphanedNodes_run w :
  removeOrphanedNodes w
    = (withNodes (filter (fun node => negb (truthy (isOrphaned node)) = true)
                         (nodes (state w))) w,
       Return (Z.of_nat (length (nodes (state w)))
               - Z.of_nat (length (filter
                    (fun node => negb (truthy (isOrphaned node)) = true)
                    (nodes (state w)))))).
Proof. reflexivity. Qed.

Lemma length_filter_orphaned (ns : list NodeState) :
  (length (filter (fun node => negb (truthy (isOrphaned node)) = true) ns)
   + length (filter (fun node => truthy (isOrphaned node) = true) ns))%nat
  = length ns.
Proof.
  induction ns as [|n ns IH]; [done|].
  destruct (truthy (isOrphaned n)) eqn:Ho.
  - rewrite filter_cons_False by (rewrite Ho; simpl; congruence).
    rewrite (filter_cons_True (fun node => truthy (isOrphaned node) = true)) by done.
    simpl. lia.
  - rewrite filter_cons_True by (by rewrite Ho).
    rewrite (filter_cons_False (fun node => truthy (isOrphaned node) = true))
      by (rewrite Ho; congruence).
    simpl. lia.
Qed.

Lemma filter_kept_not_orphaned (ns : list NodeState) :
  filter (fun node => truthy (isOrphaned node) = true)
    (filter (fun node => negb (truthy (isOrphaned node)) = true) ns) = [].
Proof.
  induction ns as [|n ns IH]; [done|].
  destruct (truthy (isOrphaned n)) eqn:Ho.
  - by rewrite filter_cons_False by (rewrite Ho; simpl; congruence).
  - rewrite filter_cons_True by (by rewrite Ho).
    by rewrite filter_cons_False by (rewrite Ho; congruence).
Qed.

Lemma filter_none_orphaned (ns : list NodeState) :
  filter (fun node => truthy (isOrphaned node) = true) ns = [] ->
  filter (fun node => negb (truthy (isOrphaned node)) = true) ns = ns.
Proof.
  induction ns as [|n ns IH]; [done|].
  destruct (truthy (isOrphaned n)) eqn:Ho.
  - by rewrite filter_cons_True by done.
  - rewrite filter_cons_False by (rewrite Ho; congruence). intros H.
    rewrite filter_cons_True by (by rewrite Ho). f_equal. by apply IH.
Qed.

(** X24.  Cleaning up orphaned nodes from the canvas.  When the state
    manager has an orphaned node, the canvas afterwards shows exactly the
    nodes of the state manager, none of them orphaned, the counter is 0,
    every edge of the canvas has both ends at nodes that are left, and the
    state manager has exactly the edges of the canvas.  When it has none,
    nothing changes. *)
Theorem handleCleanupOrphaned_leaves_no_dangling_edge app w :
  (0 < countOrphaned w ->
   let app' := fst (handleCleanupOrphaned app w) in
   let w' := snd (handleCleanupOrphaned app w) in
   app_nodes app' = toFlowNode <$> nodes (state w') /\
   nodes (state w') = filter (fun n => negb (truthy (isOrphaned n)) = true)
                             (nodes (state w)) /\
   countOrphaned w' = 0 /\
   orphanedCount app' = 0 /\
   Forall (fun edge => source edge ∈ id <$> nodes (state w') /\
                       target edge ∈ id <$> nodes (state w')) (app_edges app') /\
   edges (state w') = app_edges app') /\
  (countOrphaned w = 0 -> handleCleanupOrphaned app w = (app, w)).
Proof.
  pose proof (length_filter_orphaned (nodes (state w))) as Hlen.
  unfold handleCleanupOrphaned. rewrite removeOrphanedNodes_run.
  unfold countOrphaned. split.
  - intros Hpos. destruct (0 <? _) eqn:Hlt; [|apply Z.ltb_ge in Hlt; lia].
    unfold toReactFlowNodes. run_M. simpl. split_and!; try done.
    + by rewrite filter_kept_not_orphaned.
    + apply Forall_forall. intros edge He.
      apply list_elem_of_filter in He as [[Hs Ht] _].
      rewrite !elem_of_list_to_set, <- !list_fmap_compose in Hs, Ht.
      by split.
  - intros Hzero. destruct (0 <? _) eqn:Hlt; [apply Z.ltb_lt in Hlt; lia|].
    assert (Hnil : filter (fun node => truthy (isOrphaned node) = true)
                          (nodes (state w)) = []).
    { apply length_zero_iff_nil. lia. }
    by rewrite (filter_none_orphaned _ Hnil), withNodes_same.
Qed.

Lemma handleCleanupOrphaned_leaves_no_dangling_edge_witness :
  let w := fst (reEnumerateMarkdownFiles world_mixed_ids) in
  let app' := fst (handleCleanupOrphaned app_mixed_ids w) in
  let w' := snd (handleCleanupOrphaned app_mixed_ids w) in
  0 < countOrphaned w /\
  app_nodes app' = toFlowNode <$> nodes (state w') /\
  nodes (state w') = filter (fun n => negb (truthy (isOrphaned n)) = true)
                            (nodes (state w)) /\
  countOrphaned w' = 0 /\
  orphanedCount app' = 0 /\
  Forall (fun edge => source edge ∈ id <$> nodes (state w') /\
                      target edge ∈ id <$> nodes (state w')) (app_edges app') /\
  edges (state w') = app_edges app'.
Proof.
  intros w app' w'.
  assert (Hpos : 0 < countOrphaned w) by reflexivity.
  split; [exact Hpos|].
  apply (handleCleanupOrphaned_leaves_no_dangling_edge app_mixed_ids w). exact Hpos.
Defined.

(** X25.  Deleting an edge from the canvas removes every canvas edge with
    that id and leaves the state manager with exactly the edges of the
    canvas, whatever edges it had before; the nodes are not touched. *)
Theorem handleEdgeDelete_syncs_edges edgeId app w :
  let app' := fst (handleEdgeDelete edgeId app w) in
  let w' := snd (handleEdgeDelete edgeId app w) in
  app_edges app' = filter (fun edge => edge_id edge <> edgeId) (app_edges app) /\
  Forall (fun edge => edge_id edge <> edgeId) (edges (state w')) /\
  edges (state w') = app_edges app' /\
  nodes (state w') = nodes (state w) /\
  app_nodes app' = app_nodes app.
Proof.
  intros app' w'. unfold app', w', handleEdgeDelete, removeEdge. run_M. simpl.
  split_and!; try done.
  - apply Forall_forall. intros edge He. by apply list_elem_of_filter in He as [? _].
  - by destruct (findEdge edgeId (edges (state w))) as [[? ?]|].
Qed.

(** X26.  The start of the application.  The component is marked
    initialized whatever happens.  When [initializeWorkflowState] returns,
    the canvas shows the nodes and edges of the state manager and the
    counter is the number of its orphaned nodes.  When the write of new
    nodes is refused, the error is caught: the canvas keeps the nodes and
    edges it had (none at the start) and the state manager keeps its state,
    although files are listed. *)
Theorem initializeWorkflow_outcomes app w :
  isInitialized (fst (initializeWorkflow app w)) = true /\
  (saveResponse (backend w) = SaveOk ->
   let app' := fst (initializeWorkflow app w) in
   let w' := snd (initializeWorkflow app w) in
   app_nodes app' = toFlowNode <$> nodes (state w') /\
   app_edges app' = edges (state w') /\
   orphanedCount app' = countOrphaned w') /\
  (saveResponse (backend w) <> SaveOk ->
   novelFiles (configNodes (backend w)) (listedFiles (backend w)) <> [] ->
   let app' := fst (initializeWorkflow app w) in
   let w' := snd (initializeWorkflow app w) in
   app_nodes app' = app_nodes app /\
   app_edges app' = app_edges app /\
   orphanedCount app' = orphanedCount app /\
   state w' = state w).
Proof.
  unfold initializeWorkflow. split_and!.
  - by destruct (initializeWorkflowState w) as [w1 [[??]|?]].
  - intros Hok. rewrite initializeWorkflowState_returns by (by left). simpl.
    by rewrite nodes_initializedWorld, edges_initializedWorld.
  - intros Hfail Hnew. rewrite initializeWorkflowState_body.
    destruct (novelFiles _ _); [done|].
    by destruct (saveResponse (backend w)).
Qed.

Lemma initializeWorkflow_outcomes_witness :
  let w := world_save_fails in
  let app' := fst (initializeWorkflow app_initial w) in
  let w' := snd (initializeWorkflow app_initial w) in
  saveResponse (backend w) <> SaveOk /\
  novelFiles (configNodes (backend w)) (listedFiles (backend w)) <> [] /\
  saveResponse (backend world_four_documents) = SaveOk /\
  app_nodes app' = app_nodes app_initial /\
  app_edges app' = app_edges app_initial /\
  orphanedCount app' = orphanedCount app_initial /\
  state w' = state w /\
  app_nodes (fst (initializeWorkflow app_initial world_four_documents))
    = toFlowNode <$> nodes (state (snd (initializeWorkflow app_initial world_four_documents))).
Proof.
  intros w app' w'.
  assert (Hfail : saveResponse (backend w) <> SaveOk) by (vm_compute; discriminate).
  assert (Hnew : novelFiles (configNodes (backend w)) (listedFiles (backend w)) <> [])
    by (vm_compute; discriminate).
  assert (Hok : saveResponse (backend world_four_documents) = SaveOk) by reflexivity.
  pose proof (initializeWorkflow_outcomes app_initial w) as (_ & _ & H3).
  pose proof (initializeWorkflow_outcomes app_initial world_four_documents)
    as (_ & H2 & _).
  destruct (H3 Hfail Hnew) as (? & ? & ? & ?).
  destruct (H2 Hok) as (? & _).
  by split_and!.
Defined.

(** X27.  The re-scan button.  When the write is accepted the canvas shows
    the nodes and edges of the state manager afterwards.  When it is
    refused the error is caught and the canvas is left as it was, while the
    state manager already has the merged nodes in memory: with new files
    listed, the state manager then holds more nodes than the canvas was
    given. *)
Theorem handleReEnumerateClick_outcomes app w :
  (saveResponse (backend w) = SaveOk ->
   let app' := fst (handleReEnumerateClick app w) in
   let w' := snd (handleReEnumerateClick app w) in
   app_nodes app' = toFlowNode <$> nodes (state w') /\
   app_edges app' = edges (state w') /\
   orphanedCount app' = countOrphaned w') /\
  (saveResponse (backend w) <> SaveOk ->
   let app' := fst (handleReEnumerateClick app w) in
   let w' := snd (handleReEnumerateClick app w) in
   app' = app /\
   nodes (state w') = reconcileNodes (nodes (state w)) (listedFiles (backend w)) /\
   length (nodes (state w'))
     = (length (nodes (state w))
        + length (novelFiles (nodes (state w)) (listedFiles (backend w))))%nat).
Proof.
  unfold handleReEnumerateClick. rewrite reEnumerateMarkdownFiles_run. split.
  - by intros ->.
  - intros Hfail. destruct (saveResponse (backend w)) eqn:Hs; [done|..]; simpl;
      (split_and!; [done|done|]);
      by rewrite reconcileNodes_app, length_app, length_markedNodes, length_imap.
Qed.

Lemma handleReEnumerateClick_outcomes_witness :
  let w := world_mixed_refusing in
  let app' := fst (handleReEnumerateClick app_mixed_ids w) in
  let w' := snd (handleReEnumerateClick app_mixed_ids w) in
  saveResponse (backend w) <> SaveOk /\
  saveResponse (backend world_mixed_ids) = SaveOk /\
  app' = app_mixed_ids /\
  nodes (state w') = reconcileNodes (nodes (state w)) (listedFiles (backend w)) /\
  length (nodes (state w'))
    = (length (nodes (state w))
       + length (novelFiles (nodes (state w)) (listedFiles (backend w))))%nat /\
  app_nodes (fst (handleReEnumerateClick app_mixed_ids world_mixed_ids))
    = toFlowNode <$> nodes (state (snd (handleReEnumerateClick app_mixed_ids world_mixed_ids))).
Proof.
  intros w app' w'.
  assert (Hfail : saveResponse (backend w) <> SaveOk) by (vm_compute; discriminate).
  assert (Hok : saveResponse (backend world_mixed_ids) = SaveOk) by reflexivity.
  pose proof (handleReEnumerateClick_outcomes app_mixed_ids w) as (_ & H2).
  pose proof (handleReEnumerateClick_outcomes app_mixed_ids world_mixed_ids) as (H1 & _).
  destruct (H2 Hfail) as (? & ? & ?).
  destruct (H1 Hok) as (? & _).
  by split_and!.
Defined.

(** X28.  The save button and a reload.  When the write is accepted, the
    save button leaves the state in memory as it is and makes the
    configuration file equal to it; when the configuration can be fetched,
    a following [initializeWorkflowState] returns and brings every node
    back at its index with its id, position, size, collapse state and
    document (only the availability flag is recomputed), and the edges
    too. *)
Theorem save_button_then_reload w :
  saveResponse (backend w) = SaveOk ->
  configReadable (backend w) = true ->
  let w1 := handleSave w in
  state w1 = state w /\
  configFile (backend w1) = Some (state w) /\
  exists w2 flow,
    initializeWorkflowState w1 = (w2, Return (flow, edges (state w))) /\
    edges (state w2) = edges (state w) /\
    forall (i : nat) n,
      nodes (state w) !! i = Some n ->
      exists o, nodes (state w2) !! i = Some (set_isOrphaned o n).
Proof.
  intros Hok Hread w1.
  assert (Hw1 : w1 = {| state := state w;
                        backend := withConfigFile (state w) (backend w) |}).
  { unfold w1, handleSave, getState. run_M.
    by rewrite (saveWorkflowConfig_ok _ _ Hok). }
  assert (Hcfg : loadedConfig (backend w1) = Some (state w)).
  { rewrite Hw1. unfold loadedConfig. simpl. by rewrite Hread. }
  assert (Hns : configNodes (backend w1) = nodes (state w))
    by (unfold configNodes; by rewrite Hcfg).
  assert (Hes : configEdges (backend w1) = edges (state w))
    by (unfold configEdges; by rewrite Hcfg).
  split_and!; [by rewrite Hw1|by rewrite Hw1|].
  eexists _, _. split_and!.
  - rewrite initializeWorkflowState_returns by (left; by rewrite Hw1).
    by rewrite Hes.
  - by rewrite edges_initializedWorld.
  - intros i n Hi. rewrite nodes_initializedWorld, Hns. eexists.
    by apply reconcileNodes_existing.
Qed.

Lemma save_button_then_reload_witness :
  saveResponse (backend world_mixed_ids) = SaveOk /\
  configReadable (backend world_mixed_ids) = true /\
  let w1 := handleSave world_mixed_ids in
  state w1 = state world_mixed_ids /\
  configFile (backend w1) = Some (state world_mixed_ids) /\
  exists w2 flow,
    initializeWorkflowState w1 = (w2, Return (flow, edges (state world_mixed_ids))) /\
    edges (state w2) = edges (state world_mixed_ids) /\
    forall (i : nat) n,
      nodes (state world_mixed_ids) !! i = Some n ->
      exists o, nodes (state w2) !! i = Some (set_isOrphaned o n).
Proof.
  split_and!; [reflexivity..|].
  apply (save_button_then_reload world_mixed_ids); reflexivity.
Defined.

End Handlers.
